(** * MindMate voice assistant: the CLI (main.py) and the server (backend/app.py)

    A shallow embedding of the control flow of the two entry points and the
    properties of their specification.

    Python values are modelled by [pyobj]; a [str] is the list of its code
    points.  External services (chat completion, speech synthesis, playback,
    transcription, the operating system) answer through explicit oracles, and
    what the program does to the outside world is returned as a trace. *)

From Stdlib Require Import String Ascii ZArith NArith List Bool Lia QArith.
From Stdlib Require Import DecimalString Sorting.Sorted Lqa Qabs.
Import ListNotations.

Set Implicit Arguments.
Set Warnings "-register-all".

(* ================================================================== *)
(** * Python strings and values *)

Module Py.

(** A [str]: the sequence of its Unicode code points. *)
Definition pystr := list N.

(** A string literal of the source (all literals used here are ASCII). *)
Definition lit (s : string) : pystr :=
  map N_of_ascii (list_ascii_of_string s).

(** What the Python runtime under the program fixes and the repository does
    not contain, taken as a parameter.

    The Unicode character database: its classification of the code points
    above U+007F.  On ASCII the classification is fixed and written out
    below.  [uc_lower] is [str.lower] on a string that is not pure ASCII.

    The range of [time.sleep]: [sleep_overflows secs] tells whether the
    duration is too large for the clock of the platform, in which case
    [time.sleep] raises an OverflowError. *)
Record Runtime := {
  uc_printable : N -> bool;
  uc_space : N -> bool;
  uc_lower : pystr -> pystr;
  sleep_overflows : Q -> bool
}.

Definition is_ascii (c : N) : bool := (c <? 128)%N.

(** ASCII whitespace of [str.isspace]: TAB..CR, FS..US and the space. *)
Definition ascii_space (c : N) : bool :=
  ((9 <=? c) && (c <=? 13) || (28 <=? c) && (c <=? 32))%N.

Definition ascii_printable (c : N) : bool := ((32 <=? c) && (c <? 127))%N.

Definition isspace (U : Runtime) (c : N) : bool :=
  if is_ascii c then ascii_space c else uc_space U c.

Definition isprintable (U : Runtime) (c : N) : bool :=
  if is_ascii c then ascii_printable c else uc_printable U c.

Definition ascii_lower (c : N) : N :=
  if ((65 <=? c) && (c <=? 90))%N then (c + 32)%N else c.

Definition lower (U : Runtime) (s : pystr) : pystr :=
  if forallb is_ascii s then map ascii_lower s else uc_lower U s.

Fixpoint pystr_eqb (a b : pystr) : bool :=
  match a, b with
  | [], [] => true
  | x :: a', y :: b' => (x =? y)%N && pystr_eqb a' b'
  | _, _ => false
  end.

(** [s.lstrip()], [s.rstrip()], [s.strip()] *)
Fixpoint lstrip (U : Runtime) (s : pystr) : pystr :=
  match s with
  | [] => []
  | c :: r => if isspace U c then lstrip U r else s
  end.

Definition rstrip (U : Runtime) (s : pystr) : pystr :=
  rev (lstrip U (rev s)).

Definition strip (U : Runtime) (s : pystr) : pystr :=
  rstrip U (lstrip U s).

Definition SPACE : N := 32%N.
Definition has_space (s : pystr) : bool := existsb (N.eqb SPACE) s.

(** [s.rsplit(' ', 1)[0]]: what precedes the last space, or [s] itself when
    it has no space. *)
Fixpoint rsplit1_head (s : pystr) : pystr :=
  match s with
  | [] => []
  | c :: r =>
      if has_space r then c :: rsplit1_head r
      else if (c =? SPACE)%N then [] else s
  end.

(** [s[:m]], with Python's reading of a negative bound. *)
Definition slice_to (s : pystr) (m : Z) : pystr :=
  if (0 <=? m)%Z then firstn (Z.to_nat m) s
  else firstn (length s - Z.to_nat (- m)) s.

(** [sub in s] on strings *)
Fixpoint starts_with (sub s : pystr) : bool :=
  match sub, s with
  | [], _ => true
  | _ :: _, [] => false
  | a :: sub', b :: s' => (a =? b)%N && starts_with sub' s'
  end.

Fixpoint contains (sub s : pystr) : bool :=
  starts_with sub s ||
  match s with
  | [] => false
  | _ :: s' => contains sub s'
  end.

(** [str(n)] for an int *)
Definition str_of_int (n : Z) : pystr :=
  lit (NilZero.string_of_int (Z.to_int n)).

(** The Python values that reach the program: what the callers pass and what
    [json.loads] builds.  A dict is the list of its items. *)
Inductive pyobj :=
| PyNone
| PyBool (b : bool)
| PyInt (n : Z)
| PyStr (s : pystr)
| PyList (l : list pyobj)
| PyDict (items : list (pystr * pyobj)).

(** [bool(x)] *)
Definition truthy (x : pyobj) : bool :=
  match x with
  | PyNone => false
  | PyBool b => b
  | PyInt n => negb (n =? 0)%Z
  | PyStr s => match s with [] => false | _ => true end
  | PyList l => match l with [] => false | _ => true end
  | PyDict d => match d with [] => false | _ => true end
  end.

Definition isinstance_str (x : pyobj) : bool :=
  match x with PyStr _ => true | _ => false end.

(** [type(x).__name__] *)
Definition type_name (x : pyobj) : string :=
  match x with
  | PyNone => "NoneType"
  | PyBool _ => "bool"
  | PyInt _ => "int"
  | PyStr _ => "str"
  | PyList _ => "list"
  | PyDict _ => "dict"
  end.

(** [d.get(key)] on a dict *)
Fixpoint dict_get (items : list (pystr * pyobj)) (key : pystr) : option pyobj :=
  match items with
  | [] => None
  | (k, v) :: rest => if pystr_eqb k key then Some v else dict_get rest key
  end.

(** A runtime for evaluating examples.  Its tables follow the Unicode
    database up to U+00FF (Latin-1) and take every code point above as
    neither printable nor whitespace, left unchanged by [lower].  Its
    [time.sleep] keeps a duration as a signed 64-bit count of nanoseconds, as
    CPython does on 64-bit Linux. *)
Definition latin1_printable (c : N) : bool :=
  ((161 <=? c) && (c <=? 255) && negb (c =? 173))%N.

Definition latin1_space (c : N) : bool := ((c =? 133) || (c =? 160))%N.

Definition latin1_lower (c : N) : N :=
  if is_ascii c then ascii_lower c
  else if ((192 <=? c) && (c <=? 222) && negb (c =? 215))%N then (c + 32)%N
  else c.

Definition cpython_sleep_overflows (secs : Q) : bool :=
  Qle_bool (9223372036854775808 # 1000000000) (Qabs secs).

Definition latin1 : Runtime :=
  {| uc_printable := latin1_printable;
     uc_space := latin1_space;
     uc_lower := map latin1_lower;
     sleep_overflows := cpython_sleep_overflows |}.

End Py.

Import Py.

(* ================================================================== *)
(** * main.py: the command-line assistant *)

Module Main.

(** ** sanitize_text (main.py 172-193) *)

Definition keep (U : Runtime) (c : N) : bool :=
  isprintable U c || isspace U c.

Definition sanitize_text (U : Runtime) (text : pyobj) (max_length : Z)
  : pystr :=
  if negb (truthy text) || negb (isinstance_str text) then []
  else
    match text with
    | PyStr s =>
        let sanitized := filter (keep U) s in
        let sanitized := strip U sanitized in
        if (max_length <? Z.of_nat (length sanitized))%Z
        then rsplit1_head (slice_to sanitized max_length) ++ lit "..."
        else sanitized
    | _ => []
    end.

Definition sanitize_default_max_length : Z := 500.

(** ** validate_input (main.py 285-306) *)

Definition MSG_REPEAT : pystr :=
  lit "I didn't catch that. Could you please repeat?".

Definition msg_too_long (max_length : Z) : pystr :=
  lit "Your message is too long. Please keep it under "
    ++ str_of_int max_length ++ lit " characters.".

Definition validate_input (U : Runtime) (text : pyobj) (max_length : Z)
  : bool * pystr :=
  if negb (truthy text) || negb (isinstance_str text) then (false, MSG_REPEAT)
  else
    match text with
    | PyStr s =>
        let text := strip U s in
        if negb (truthy (PyStr text)) then (false, MSG_REPEAT)
        else if (max_length <? Z.of_nat (length text))%Z
             then (false, msg_too_long max_length)
             else (true, text)
    | _ => (false, MSG_REPEAT)
    end.

Definition validate_default_max_length : Z := 1000.

(** ** process_text (main.py 308-365) *)

(** What one pass through the [try] block meets: a response of
    [openai.ChatCompletion.create] with the message contents of its choices,
    a [RateLimitError], an [APIError], or any other exception raised by the
    call or while the response is read. *)
Inductive api_outcome :=
| Completion (choices : list pystr)
| RateLimitError
| APIError
| OtherError.

(** How a call of a modelled function ends.  [OutOfFuel] is the model's own
    artefact, shown unreachable for [process_text] below. *)
Inductive outcome :=
| Returned (value : pystr)
| Raised (what : pystr)
| OutOfFuel.

(** A run of [process_text]: how it ended, the number of calls made to the
    chat-completion service, and the arguments of its [time.sleep] calls in
    order. *)
Record pt_run := {
  result : outcome;
  calls : nat;
  sleeps : list Q
}.

Definition MSG_RATE_LIMIT : pystr :=
  lit "I'm getting too many requests. Please try again later.".
Definition MSG_API_ERROR : pystr :=
  lit "I'm having trouble connecting to the service. Please try again later.".
Definition MSG_UNEXPECTED : pystr :=
  lit "I'm sorry, I encountered an error processing your request. Please try again later.".
Definition MSG_FALLBACK : pystr :=
  lit "I'm having trouble processing your request. Please try again later.".

(** Numbers.  A delay is an exact number: an int or a finite float of
    Python.  Doubling and the minimum with 10 are exact on these, and when
    the double of a float overflows to infinity the minimum is 10 in the
    code as it is here. *)
Definition MAX_DELAY : Q := 10.

(** [min(a, b)] of Python on numbers *)
Definition py_min (a b : Q) : Q := if Qle_bool a b then a else b.

(** [time.sleep(secs)] goes through when the duration fits the clock of the
    platform and is not negative; it raises an OverflowError in the first
    case and a ValueError in the second.  [sleep_error] is the text of the
    exception. *)
Definition sleep_ok (U : Runtime) (secs : Q) : bool :=
  negb (sleep_overflows U secs) && Qle_bool 0 secs.

Definition sleep_error (U : Runtime) (secs : Q) : pystr :=
  if sleep_overflows U secs
  then lit "timestamp too large to convert to C _PyTime_t"
  else lit "sleep length must be non-negative".

Section RetryLoop.

Variable U : Runtime.
(** [service k]: the outcome of the call made after [k] earlier calls. *)
Variable service : nat -> api_outcome.
(** [shutdown_flag k]: the global flag as the loop condition reads it after
    [k] calls. *)
Variable shutdown_flag : nat -> bool.
Variable max_retries : Z.

Fixpoint retry_loop (fuel : nat) (retry_count : Z) (delay : Q)
    (ncalls : nat) (slept : list Q) : pt_run :=
  if (retry_count <? max_retries)%Z && negb (shutdown_flag ncalls) then
    match fuel with
    | O => {| result := OutOfFuel; calls := ncalls; sleeps := slept |}
    | S fuel' =>
        (* except Exception *)
        let unexpected :=
          let retry_count := (retry_count + 1)%Z in
          if (retry_count >=? max_retries)%Z
          then {| result := Returned MSG_UNEXPECTED;
                  calls := S ncalls; sleeps := slept |}
          else retry_loop fuel' retry_count delay (S ncalls) slept in
        match service ncalls with
        | Completion [] => unexpected      (* ValueError("No response ...") *)
        | Completion (content :: _) =>
            {| result := Returned (strip U content);
               calls := S ncalls; sleeps := slept |}
        | RateLimitError =>
            let retry_count := (retry_count + 1)%Z in
            if (retry_count >=? max_retries)%Z
            then {| result := Returned MSG_RATE_LIMIT;
                    calls := S ncalls; sleeps := slept |}
            else if sleep_ok U delay
            then retry_loop fuel' retry_count (py_min (delay * 2) MAX_DELAY)
                   (S ncalls) (slept ++ [delay])
            else {| result := Raised (sleep_error U delay);
                    calls := S ncalls; sleeps := slept ++ [delay] |}
        | APIError =>
            {| result := Returned MSG_API_ERROR;
               calls := S ncalls; sleeps := slept |}
        | OtherError => unexpected
        end
    end
  else {| result := Returned MSG_FALLBACK; calls := ncalls; sleeps := slept |}.

Definition process_text (text : pyobj) (initial_delay : Q) : pt_run :=
  let '(is_valid, result) := validate_input U text validate_default_max_length in
  if negb is_valid
  then {| result := Returned result; calls := 0; sleeps := [] |}
  else retry_loop (Z.to_nat max_retries) 0 initial_delay 0 [].

End RetryLoop.

Definition default_max_retries : Z := 3.
Definition default_initial_delay : Q := 1.

(** ** Temporary files and speak_text (main.py 164-170, 195-283) *)

(** The filesystem, as far as the program looks at it: the paths that
    exist. *)
Definition filesystem := list pystr.

Definition path_exists (fs : filesystem) (p : pystr) : bool :=
  existsb (pystr_eqb p) fs.

Definition create_file (fs : filesystem) (p : pystr) : filesystem :=
  if path_exists fs p then fs else p :: fs.

Definition remove_file (fs : filesystem) (p : pystr) : filesystem :=
  filter (fun q => negb (pystr_eqb p q)) fs.

(** [cleanup_temp_file]: [unlink_ok] tells whether [os.unlink] succeeds; its
    failure is caught and only printed. *)
Definition cleanup_temp_file (unlink_ok : bool) (file_path : pystr)
    (fs : filesystem) : filesystem :=
  if truthy (PyStr file_path) && path_exists fs file_path
  then if unlink_ok then remove_file fs file_path else fs
  else fs.

(** What [tts.save] leaves behind: a file of some size, or an exception,
    after which the file may or may not have been created. *)
Inductive save_outcome :=
| Saved (size : nat)
| SaveFailed (file_created : bool).

(** The answers of the outside world during one call of [speak_text]. *)
Record speak_env := {
  mktemp : pystr;              (* tempfile.mktemp(suffix='.mp3') *)
  tts_save : save_outcome;     (* gTTS(...) and tts.save(temp_file) *)
  sf_read : bool;              (* sf.read(temp_file) succeeds *)
  sd_play : bool;              (* sd.play and sd.wait succeed *)
  system_player : bool;        (* the platform's player succeeds *)
  unlink_ok : bool             (* os.unlink succeeds *)
}.

Inductive playback :=
| PlaySounddevice (volume rate : Q)
| PlaySystem
| PrintText (text : pystr).

Definition clamp (lo hi x : Q) : Q :=
  (* max(lo, min(hi, x)) *)
  let m := py_min hi x in if Qle_bool m lo then lo else m.

Record speak_run := {
  success : bool;
  files : filesystem;
  played : list playback
}.

Definition speak_text (U : Runtime) (e : speak_env) (fs : filesystem)
    (text : pyobj) (rate volume : Q) : speak_run :=
  let sanitized_text := sanitize_text U text sanitize_default_max_length in
  if negb (truthy (PyStr sanitized_text))
  then {| success := false; files := fs; played := [] |}
  else
    let rate := clamp (1 # 2) 2 rate in
    let volume := clamp 0 1 volume in
    let temp_file := mktemp e in
    (* try *)
    let '(success, fs, played) :=
      match tts_save e with
      | SaveFailed created =>
          (false, if created then create_file fs temp_file else fs,
           [PrintText sanitized_text])
      | Saved size =>
          let fs := create_file fs temp_file in
          if negb (path_exists fs temp_file) || (size =? 0)%nat
          then (false, fs, [PrintText sanitized_text])      (* IOError *)
          else if negb (sf_read e)
          then (false, fs, [PrintText sanitized_text])
          else if sd_play e
          then (true, fs, [PlaySounddevice volume rate])
          else if system_player e
          then (true, fs, [PlaySystem])
          else (false, fs, [PrintText sanitized_text])
      end in
    (* finally *)
    let fs :=
      if truthy (PyStr temp_file) && path_exists fs temp_file
      then if unlink_ok e then remove_file fs temp_file else fs
      else fs in
    {| success := success; files := fs; played := played |}.

(** ** The conversation loop of main (main.py 410-479) *)

Definition EXIT_WORDS : list pystr :=
  [lit "exit"; lit "quit"; lit "bye"; lit "goodbye"].

(** [any(exit_word in user_input.lower() for exit_word in [...])] *)
Definition wants_exit (U : Runtime) (user_input : pystr) : bool :=
  existsb (fun exit_word => contains exit_word (lower U user_input)) EXIT_WORDS.

Definition SAY_FAREWELL : pystr := lit "Goodbye! Have a great day!".
Definition SAY_NO_RESPONSE : pystr :=
  lit "I'm sorry, I couldn't generate a response. Please try again.".
Definition SAY_REPEAT : pystr :=
  lit "I didn't catch that. Could you please repeat?".
Definition SAY_CHECK_MIC : pystr :=
  lit "I'm having trouble understanding you. Please check your microphone and try again.".
Definition SAY_INTERRUPTED : pystr := lit "Goodbye!".
Definition SAY_ERROR : pystr :=
  lit "I encountered an error. Let's try that again.".
Definition SAY_TOO_MANY : pystr :=
  lit "I'm having too many issues. Please restart me.".

Definition MAX_CONSECUTIVE_ERRORS : Z := 3.

(** What [listen_to_speech()] gives back to the loop: its return value (a
    stripped, non-empty str, or None), or an exception escaping it. *)
Inductive listen_outcome :=
| Heard (user_input : pyobj)
| KeyboardInterrupt
| ListenError.

(** The outside world during one iteration: the shutdown flag at each place
    the loop reads it, the outcome of listening and the chat-completion
    service. *)
Record turn := {
  flag_at_loop : bool;             (* line 414 *)
  listened : listen_outcome;       (* line 419 *)
  flag_after_listen : bool;        (* line 422 *)
  chat_service : nat -> api_outcome;
  flag_in_retry : nat -> bool;     (* line 328 *)
  flag_after_process : bool        (* line 437 *)
}.

(** What the loop does, in order: a listening attempt, a call of
    [speak_text], the calls to the chat service of one [process_text], a
    sleep. *)
Inductive event :=
| Listen
| Speak (text : pystr)
| Chat (ncalls : nat)
| Sleep (secs : Q).

Record loop_state := {
  conversation_active : bool;
  consecutive_errors : Z
}.

(** One pass through the body of the loop: its events, the state it leaves
    and whether it left the loop by [break]. *)
Definition loop_body (U : Runtime) (t : turn) (st : loop_state)
  : list event * loop_state * bool :=
  (* except Exception *)
  let on_error (done : list event) :=
    let errors := (consecutive_errors st + 1)%Z in
    if (errors >? MAX_CONSECUTIVE_ERRORS * 2)%Z
    then (done ++ [Speak SAY_ERROR; Speak SAY_TOO_MANY],
          {| conversation_active := false; consecutive_errors := errors |},
          true)
    else (done ++ [Speak SAY_ERROR; Sleep 1],
          {| conversation_active := conversation_active st;
             consecutive_errors := errors |},
          false) in
  match listened t with
  | KeyboardInterrupt =>
      ([Listen; Speak SAY_INTERRUPTED],
       {| conversation_active := false;
          consecutive_errors := consecutive_errors st |}, true)
  | ListenError => on_error [Listen]
  | Heard user_input =>
      if flag_after_listen t then ([Listen], st, true)
      else if truthy user_input then
        match user_input with
        | PyStr s =>
            if wants_exit U s
            then ([Listen; Speak SAY_FAREWELL],
                  {| conversation_active := false;
                     consecutive_errors := consecutive_errors st |}, true)
            else
              let run := process_text U (chat_service t) (flag_in_retry t)
                           default_max_retries user_input
                           default_initial_delay in
              let done := [Listen; Chat (calls run)]
                            ++ map Sleep (sleeps run) in
              match result run with
              | Returned response =>
                  if flag_after_process t then (done, st, true)
                  else
                    (done ++ [Speak (if truthy (PyStr response)
                                     then response else SAY_NO_RESPONSE)],
                     {| conversation_active := conversation_active st;
                        consecutive_errors := 0 |}, false)
              | _ => on_error done
              end
        | _ => on_error [Listen]     (* no .lower() on this value *)
        end
      else
        let errors := (consecutive_errors st + 1)%Z in
        if (errors >=? MAX_CONSECUTIVE_ERRORS)%Z
        then ([Listen; Speak SAY_REPEAT; Speak SAY_CHECK_MIC],
              {| conversation_active := conversation_active st;
                 consecutive_errors := 0 |}, false)
        else ([Listen; Speak SAY_REPEAT],
              {| conversation_active := conversation_active st;
                 consecutive_errors := errors |}, false)
  end.

(** The [while] loop against the successive turns of the outside world.  The
    list is a finite stretch of a session: when it is used up the events so
    far are what an observer has seen. *)
Fixpoint main_loop (U : Runtime) (turns : list turn) (st : loop_state)
  : list event :=
  match turns with
  | [] => []
  | t :: rest =>
      if conversation_active st && negb (flag_at_loop t) then
        let '(events, st', broke) := loop_body U t st in
        if broke then events else events ++ main_loop U rest st'
      else []
  end.

Definition initial_loop_state : loop_state :=
  {| conversation_active := true; consecutive_errors := 0 |}.

(** ** get_audio_input and listen_to_speech (main.py 52-162) *)

(** What the function does with the microphone, the recognizer and the
    speaker, in order. *)
Inductive mic_event :=
| OpenMicrophone (operation_timeout : Q)   (* sr.Recognizer(), sr.Microphone() *)
| Say (text : pystr)                       (* speak_text *)
| Calibrate (duration : Q)                 (* adjust_for_ambient_noise *)
| Capture (timeout phrase_time_limit : Q)  (* recognizer.listen *)
| Recognize                                (* recognizer.recognize_google *)
| Wait (secs : Q).                         (* time.sleep *)

Inductive mic_outcome :=
| MicOpened
| MicOSError (msg : pystr)
| MicError.                                (* any other exception *)

Inductive recognize_outcome :=
| Recognized (text : pystr)
| UnknownValueError
| RequestError
| RecognizeError.                          (* any other exception *)

(** The outside world during one pass through the loop of
    [listen_to_speech]. *)
Record attempt := {
  flag_at_attempt : bool;            (* shutdown_flag, line 104 *)
  microphone : mic_outcome;          (* line 113 *)
  calibrated : bool;                 (* adjust_for_ambient_noise succeeds *)
  captured : bool;                   (* recognizer.listen returns audio *)
  recognized : recognize_outcome     (* line 130 *)
}.

(** Numbers.  A timeout is an exact number.  For the default and for an
    int argument these are the numbers the code computes: the products with
    1.5 and the halves of the ints and of the floats that arise from them
    are exact.  For a float argument the code rounds where the model does
    not; the theorems about durations are stated for int arguments.

    An int of 2^1024 - 2^970 or more is too large to become a float (and no
    float is that large): its product with 1.5 raises an OverflowError, and
    from twice that bound so does its division by 2. *)
Definition FLOAT_LIMIT : Z := (Z.shiftl 1 1024 - Z.shiftl 1 970)%Z.

Definition float_overflows (x : Q) : bool :=
  Qle_bool (inject_Z FLOAT_LIMIT) x.

Definition half_overflows (x : Q) : bool :=
  Qle_bool (inject_Z (2 * FLOAT_LIMIT)) x.

(** [get_audio_input]: whether audio was captured, and what was done.  An
    exception, the OverflowError of [timeout/2] among them, is caught and
    None returned. *)
Definition get_audio_input (w : attempt) (timeout phrase_time_limit : Q)
  : bool * list mic_event :=
  if half_overflows timeout then (false, [])
  else
    let duration := py_min 1 (timeout / 2) in
    if negb (calibrated w) then (false, [Calibrate duration])
    else (captured w,
          [Calibrate duration;
           Capture timeout (py_min phrase_time_limit 15)]).

Inductive heard :=
| HeardText (text : pystr)
| HeardNone
| HeardRaised (what : pystr)
| HeardOutOfFuel.

Record listen_run := {
  answer : heard;
  mic_log : list mic_event
}.

Definition SAY_TRY_AGAIN : pystr := lit "I didn't catch that. Please try again.".
Definition NO_INPUT_DEVICE : pystr := lit "No Default Input Device Available".

Section ListenLoop.

Variable U : Runtime.
(** [world k]: the outside world while [attempts] is [k]. *)
Variable world : nat -> attempt.
Variable max_attempts : Z.

Fixpoint listen_loop (fuel : nat) (attempts : nat) (timeout : Q)
    (log : list mic_event) : listen_run :=
  let w := world attempts in
  if (Z.of_nat attempts <? max_attempts)%Z && negb (flag_at_attempt w) then
    match fuel with
    | O => {| answer := HeardOutOfFuel; mic_log := log |}
    | S fuel' =>
        (* lines 154-159, after the try statement; the sleep and the
           product of line 159 are outside of it *)
        let after_try (attempts : nat) (log : list mic_event) :=
          let attempts := S attempts in
          if (Z.of_nat attempts <? max_attempts)%Z then
            let wait_time := py_min timeout 5 in
            if sleep_ok U wait_time
            then
              if float_overflows timeout
              then {| answer :=
                        HeardRaised (lit "int too large to convert to float");
                      mic_log := log ++ [Wait wait_time] |}
              else listen_loop fuel' attempts (py_min (timeout * (3 # 2)) 15)
                     (log ++ [Wait wait_time])
            else {| answer := HeardRaised (sleep_error U wait_time);
                    mic_log := log ++ [Wait wait_time] |}
          else listen_loop fuel' attempts timeout log in
        let log := log ++ [OpenMicrophone (timeout + 2)] in
        match microphone w with
        | MicOSError msg =>
            if contains NO_INPUT_DEVICE msg
            then {| answer := HeardNone; mic_log := log |}
            else after_try attempts log
        | MicError => after_try attempts log
        | MicOpened =>
            let log :=
              if (0 <? attempts)%nat then log ++ [Say SAY_TRY_AGAIN] else log in
            let '(audio, done) := get_audio_input w timeout 5 in
            let log := log ++ done in
            if negb audio
            then
              (* attempts += 1, then the product of line 123, inside the
                 try: its OverflowError is caught on line 151 *)
              if float_overflows timeout
              then after_try (S attempts) log
              else listen_loop fuel' (S attempts)
                     (py_min (timeout * (3 # 2)) 10) log
            else
              let log := log ++ [Recognize] in
              match recognized w with
              | Recognized text =>
                  if truthy (PyStr text) && truthy (PyStr (strip U text))
                  then {| answer := HeardText (strip U text); mic_log := log |}
                  else after_try attempts log
              | UnknownValueError => after_try attempts log
              | RequestError => {| answer := HeardNone; mic_log := log |}
              | RecognizeError => after_try attempts log
              end
        end
    end
  else {| answer := HeardNone; mic_log := log |}.

End ListenLoop.

(** The arguments are [Some] value when they pass the [isinstance] test of
    lines 96 and 98, [None] otherwise. *)
Definition listen_to_speech (U : Runtime) (world : nat -> attempt)
    (max_attempts : option Z) (initial_timeout : option Q) : listen_run :=
  let max_attempts :=
    match max_attempts with
    | Some n => if (n <? 1)%Z then 3%Z else n
    | None => 3%Z
    end in
  let initial_timeout :=
    match initial_timeout with
    | Some t => if Qle_bool t 0 then 5 else t
    | None => 5
    end in
  listen_loop U world max_attempts (Z.to_nat max_attempts) 0 initial_timeout [].

End Main.

(* ================================================================== *)
(** * backend/app.py: the WebSocket server *)

Module App.

Import Main.

(** An exception: whether it is a [WebSocketDisconnect] (every other
    exception met here is an ordinary [Exception]) and its [str(e)]. *)
Record exn := {
  is_disconnect : bool;
  message : pystr
}.

Definition Exception (msg : string) : exn :=
  {| is_disconnect := false; message := lit msg |}.
Definition WebSocketDisconnect : exn :=
  {| is_disconnect := true; message := [] |}.

(** The result of a call that may raise. *)
Inductive result (A : Type) :=
| Ok (value : A)
| Err (e : exn).
Arguments Ok {A} value.
Arguments Err {A} e.

Definition websocket := nat.

(** ** ConnectionManager (app.py 54-66) *)

Definition connect (active_connections : list websocket) (ws : websocket)
  : list websocket :=
  active_connections ++ [ws].

(** [list.remove]: drops the first occurrence, ValueError when there is
    none. *)
Fixpoint list_remove (l : list websocket) (ws : websocket)
  : option (list websocket) :=
  match l with
  | [] => None
  | x :: r =>
      if (x =? ws)%nat then Some r
      else match list_remove r ws with
           | Some r' => Some (x :: r')
           | None => None
           end
  end.

Definition disconnect (active_connections : list websocket) (ws : websocket)
  : result (list websocket) :=
  match list_remove active_connections ws with
  | Some l => Ok l
  | None => Err (Exception "list.remove(x): x not in list")
  end.

(** ** The server's state, its effects and the outside world *)

Record server := {
  active_connections : list websocket;   (* manager.active_connections *)
  closed : list websocket;               (* channels the server has closed *)
  files : filesystem                     (* temporary files that exist *)
}.

Definition with_files (st : server) (fs : filesystem) : server :=
  {| active_connections := active_connections st;
     closed := closed st; files := fs |}.

(** What the server does that others can see, in order. *)
Inductive effect :=
| SendJson (ws : websocket) (payload : pyobj)
| Transcribe (audio_path : pystr)        (* openai.Audio.atranscribe *)
| ChatCompletion (text : pyobj)          (* openai.ChatCompletion.acreate *)
| Synthesize (text : pyobj)              (* gTTS(text).save *)
| Close (ws : websocket).

(** The answers of the outside world while one message is handled. *)
Record env := {
  new_wav : result pystr;       (* NamedTemporaryFile(suffix=".wav") *)
  b64decode : result unit;      (* base64.b64decode(audio_base64) *)
  atranscribe : result (list (pystr * pyobj));
                                (* the transcript, a dict: its items *)
  acreate : result pyobj;       (* response.choices[0].message['content'] *)
  new_mp3 : result pystr;       (* NamedTemporaryFile(suffix=".mp3") *)
  gtts_save : result pystr;     (* gTTS, save, read back: the base64 text *)
  send_reply : option exn;      (* the send_json of a reply or of the
                                   no-audio error raises *)
  send_error : option exn       (* the send_json in the audio handler
                                   raises *)
}.

(** ** text_to_speech (app.py 71-84) *)

Definition text_to_speech (e : env) (text : pyobj) (fs : filesystem)
  : filesystem * list effect * pyobj :=
  match new_mp3 e with
  | Err _ => (fs, [], PyNone)
  | Ok name =>
      let fs := create_file fs name in
      match gtts_save e with
      | Err _ => (fs, [Synthesize text], PyNone)
      | Ok audio => (fs, [Synthesize text], PyStr audio)
      end
  end.

(** ** process_text_with_openai (app.py 87-117) *)

Definition MSG_TROUBLE : pystr :=
  lit "Hmm, I'm having trouble thinking of a response right now. Could we try that again?".

Definition process_text_with_openai (e : env) (text : pyobj) : pyobj :=
  match acreate e with
  | Ok content => content
  | Err _ => PyStr MSG_TROUBLE
  end.

(** ** websocket_endpoint (app.py 120-195) *)

(** [data.get(key, default)]; only a dict has [get]. *)
Definition py_get (data : pyobj) (key : string) (default : pyobj)
  : result pyobj :=
  match data with
  | PyDict items =>
      Ok (match dict_get items (lit key) with
          | Some v => v
          | None => default
          end)
  | _ => Err {| is_disconnect := false;
                message := lit "'" ++ lit (type_name data)
                             ++ lit "' object has no attribute 'get'" |}
  end.

(** [d[key]] on a dict, for a string key: a KeyError when the key is
    missing. *)
Definition py_getitem (items : list (pystr * pyobj)) (key : string)
  : result pyobj :=
  match dict_get items (lit key) with
  | Some v => Ok v
  | None => Err {| is_disconnect := false;
                   message := lit "'" ++ lit key ++ lit "'" |}
  end.

(** [value == "literal"] *)
Definition eq_str (value : pyobj) (s : string) : bool :=
  match value with
  | PyStr x => pystr_eqb x (lit s)
  | _ => false
  end.

Definition msg_no_audio : pyobj :=
  PyDict [(lit "type", PyStr (lit "error"));
          (lit "text", PyStr (lit "No audio data received"))].

Definition msg_audio_error (e : exn) : pyobj :=
  PyDict [(lit "type", PyStr (lit "error"));
          (lit "text", PyStr (lit "Error processing audio: " ++ message e))].

Definition msg_response (kind : string) (response_text audio_data : pyobj)
  : pyobj :=
  PyDict [(lit "type", PyStr (lit kind));
          (lit "text", response_text);
          (lit "audio", audio_data)].

(** What the client's side of the channel delivers to one
    [receive_text]: an exception, or a text frame and what [json.loads]
    makes of it. *)
Inductive received :=
| RecvRaises (e : exn)
| RecvText (loads : result pyobj).

(** The state, the effects and the exception (if any) with which a block
    ends. *)
Definition block := (server * list effect * option exn)%type.

(** The [try] block of the audio branch (lines 139-165). *)
Definition audio_try (ws : websocket) (e : env) (st : server) : block :=
  match new_wav e with
  | Err x => (st, [], Some x)
  | Ok audio_path =>
      let st := with_files st (create_file (files st) audio_path) in
      match b64decode e with
      | Err x => (st, [], Some x)
      | Ok _ =>
          match atranscribe e with
          | Err x => (st, [Transcribe audio_path], Some x)
          | Ok transcript =>
              match py_getitem transcript "text" with
              | Err x => (st, [Transcribe audio_path], Some x)
              | Ok user_text =>
                  let response_text := process_text_with_openai e user_text in
                  let '(fs, synth, audio_data) :=
                    text_to_speech e response_text (files st) in
                  (with_files st fs,
                   [Transcribe audio_path; ChatCompletion user_text] ++ synth
                     ++ [SendJson ws (msg_response "audio_response"
                                        response_text audio_data)],
                   send_reply e)
              end
          end
      end
  end.

(** The body of the [while True] loop (lines 125-189). *)
Definition loop_body (ws : websocket) (r : received) (e : env) (st : server)
  : block :=
  match r with
  | RecvRaises x => (st, [], Some x)
  | RecvText (Err x) => (st, [], Some x)           (* json.loads *)
  | RecvText (Ok data) =>
      match py_get data "type" PyNone with
      | Err x => (st, [], Some x)
      | Ok type =>
          if eq_str type "audio" then
            match py_get data "audio" PyNone with
            | Err x => (st, [], Some x)
            | Ok audio_base64 =>
                if negb (truthy audio_base64)
                then (st, [SendJson ws msg_no_audio], send_reply e)
                else
                  match audio_try ws e st with
                  | (st, done, None) => (st, done, None)
                  | (st, done, Some x) =>      (* except Exception as e *)
                      (st, done ++ [SendJson ws (msg_audio_error x)],
                       send_error e)
                  end
            end
          else if eq_str type "text" then
            match py_get data "text" (PyStr []) with
            | Err x => (st, [], Some x)
            | Ok user_text =>
                let response_text := process_text_with_openai e user_text in
                let '(fs, synth, audio_data) :=
                  text_to_speech e response_text (files st) in
                (with_files st fs,
                 [ChatCompletion user_text] ++ synth
                   ++ [SendJson ws (msg_response "text_response"
                                      response_text audio_data)],
                 send_reply e)
            end
          else (st, [], None)
      end
  end.

(** How the handler stands after the messages it was given. *)
Inductive status :=
| Receiving                  (* in the loop, awaiting the next message *)
| Finished                   (* left through one of its two handlers *)
| Crashed (e : exn).         (* an exception escaped the handler *)

(** The loop and the two outer handlers (lines 123-195), against the
    successive messages of the channel. *)
Fixpoint serve (ws : websocket) (inbox : list (received * env)) (st : server)
  : server * list effect * status :=
  match inbox with
  | [] => (st, [], Receiving)
  | (r, e) :: rest =>
      match loop_body ws r e st with
      | (st, done, None) =>
          let '(st', more, s) := serve ws rest st in
          (st', done ++ more, s)
      | (st, done, Some x) =>
          if is_disconnect x then          (* except WebSocketDisconnect *)
            match disconnect (active_connections st) ws with
            | Ok l =>
                ({| active_connections := l; closed := closed st;
                    files := files st |}, done, Finished)
            | Err v => (st, done, Crashed v)
            end
          else                             (* except Exception *)
            ({| active_connections := active_connections st;
                closed := ws :: closed st; files := files st |},
             done ++ [Close ws], Finished)
      end
  end.

Definition websocket_endpoint (ws : websocket)
    (inbox : list (received * env)) (st : server)
  : server * list effect * status :=
  serve ws inbox
    {| active_connections := connect (active_connections st) ws;
       closed := closed st; files := files st |}.

End App.

(* ================================================================== *)
(** * Properties *)

Import Main.

(** ** Vocabulary of the properties *)

(** [p] is an initial segment of [s]. *)
Definition prefix_of (p s : pystr) : Prop := exists t, s = p ++ t.

(** A string in the form [sanitize_text] produces: only printable or
    whitespace characters, and no whitespace at either end. *)
Definition clean (U : Runtime) (s : pystr) : Prop :=
  Forall (fun c => keep U c = true) s
  /\ (forall c, hd_error s = Some c -> isspace U c = false)
  /\ (forall c, hd_error (rev s) = Some c -> isspace U c = false).

(** The first and the last character of a string, if it has any, satisfy
    [P]. *)
Definition at_ends (P : N -> Prop) (s : pystr) : Prop :=
  match hd_error s with Some c => P c | None => True end
  /\ match hd_error (rev s) with Some c => P c | None => True end.

(** A text of 501 characters: 498 letters, a space, two letters. *)
Definition long_text : pystr := repeat 97%N 498 ++ lit " bc".

(** A chat service that answers [n] calls with a rate-limit error and every
    later call with [then_]. *)
Definition rate_limited (n : nat) (then_ : api_outcome) : nat -> api_outcome :=
  fun k => if (k <? n)%nat then RateLimitError else then_.

(** A shutdown flag that is never set, and one that is set from the start. *)
Definition flag_clear : nat -> bool := fun _ => false.
Definition flag_set : nat -> bool := fun _ => true.

(** A text of 1001 characters, a letter and 1000 spaces. *)
Definition padded_text : pystr := 97%N :: repeat SPACE 1000.

(** A turn of the conversation in which [user_input] is recognized;
    [signalled] tells whether the shutdown flag is found set when listening
    returns. *)
Definition turn_hearing (user_input : pystr) (signalled : bool) : turn :=
  {| flag_at_loop := false;
     listened := Heard (PyStr user_input);
     flag_after_listen := signalled;
     chat_service := rate_limited 0 (Completion [lit "Hi"]);
     flag_in_retry := flag_clear;
     flag_after_process := false |}.

(** An outside world in which every call of the server succeeds, and one in
    which the transcription fails. *)
Definition env_ok : App.env :=
  {| App.new_wav := App.Ok (lit "/tmp/tmpa1.wav");
     App.b64decode := App.Ok tt;
     App.atranscribe := App.Ok [(lit "text", PyStr (lit "hello"))];
     App.acreate := App.Ok (PyStr (lit "Hi there!"));
     App.new_mp3 := App.Ok (lit "/tmp/tmpb2.mp3");
     App.gtts_save := App.Ok (lit "SUQzBAAAAAAA");
     App.send_reply := None;
     App.send_error := None |}.

Definition env_transcribe_fails : App.env :=
  {| App.new_wav := App.Ok (lit "/tmp/tmpa1.wav");
     App.b64decode := App.Ok tt;
     App.atranscribe := App.Err (App.Exception "Invalid file format.");
     App.acreate := App.Ok (PyStr (lit "Hi there!"));
     App.new_mp3 := App.Ok (lit "/tmp/tmpb2.mp3");
     App.gtts_save := App.Ok (lit "SUQzBAAAAAAA");
     App.send_reply := None;
     App.send_error := None |}.

Definition server_start : App.server :=
  {| App.active_connections := []; App.closed := []; App.files := [] |}.

(** The exception, if any, with which the receive loop of the handler ends
    on the messages of [inbox]. *)
Fixpoint loop_exception (ws : App.websocket)
    (inbox : list (App.received * App.env)) (st : App.server)
  : option App.exn :=
  match inbox with
  | [] => None
  | (r, e) :: rest =>
      match App.loop_body ws r e st with
      | (st, _, None) => loop_exception ws rest st
      | (_, _, Some x) => Some x
      end
  end.

(** A speech-synthesis world of the CLI in which everything succeeds. *)
Definition speak_ok : speak_env :=
  {| mktemp := lit "/tmp/tmpc3.mp3";
     tts_save := Saved 4096;
     sf_read := true;
     sd_play := true;
     system_player := true;
     unlink_ok := true |}.

(** Messages of a client: audio with a payload, audio without the field,
    and a frame that is not JSON. *)
Definition audio_message : pyobj :=
  PyDict [(lit "type", PyStr (lit "audio"));
          (lit "audio", PyStr (lit "UklGRiQAAABXQVZF"))].

Definition audio_message_without_data : list (pystr * pyobj) :=
  [(lit "type", PyStr (lit "audio"))].

Definition bad_frame : App.received :=
  App.RecvText (App.Err (App.Exception "Expecting value: line 1 column 1 (char 0)")).

(** The server with channel 1 connected. *)
Definition server_connected : App.server :=
  {| App.active_connections := [1%nat]; App.closed := []; App.files := [] |}.


(** [time.sleep] accepts every duration from 0 to [bound]. *)
Definition sleeps_up_to (U : Runtime) (bound : Q) : Prop :=
  forall d, (0 <= d)%Q -> (d <= bound)%Q -> sleep_ok U d = true.

(** A value that is not a string, or a string with nothing but whitespace
    in it. *)
Definition blank (U : Runtime) (text : pyobj) : Prop :=
  match text with
  | PyStr s => strip U s = []
  | _ => True
  end.

(** A chat service that raises [n] exceptions that are neither rate-limit nor
    API errors, and answers [then_] afterwards. *)
Definition failing (n : nat) (then_ : api_outcome) : nat -> api_outcome :=
  fun k => if (k <? n)%nat then OtherError else then_.

(** A turn in which listening ends in an exception, and a turn in which
    nothing is recognized; in both the shutdown flag is clear. *)
Definition failing_turn (t : turn) : Prop :=
  flag_at_loop t = false /\ listened t = ListenError.

Definition silent_turn (t : turn) : Prop :=
  flag_at_loop t = false /\ flag_after_listen t = false
  /\ exists x, listened t = Heard x /\ truthy x = false.

Definition turn_failing : turn :=
  {| flag_at_loop := false;
     listened := ListenError;
     flag_after_listen := false;
     chat_service := rate_limited 0 (Completion [lit "Hi"]);
     flag_in_retry := flag_clear;
     flag_after_process := false |}.

Definition turn_silent : turn :=
  {| flag_at_loop := false;
     listened := Heard PyNone;
     flag_after_listen := false;
     chat_service := rate_limited 0 (Completion [lit "Hi"]);
     flag_in_retry := flag_clear;
     flag_after_process := false |}.

Definition is_listen (ev : event) : bool :=
  match ev with Listen => true | _ => false end.

Definition is_speak (ev : event) : bool :=
  match ev with Speak _ => true | _ => false end.

(** The number of times a log of [listen_to_speech] opens the microphone. *)
Definition is_open (ev : mic_event) : bool :=
  match ev with OpenMicrophone _ => true | _ => false end.

Definition opens (log : list mic_event) : nat := length (filter is_open log).

(** The durations an event of [listen_to_speech] may carry. *)
Definition timing_ok (ev : mic_event) : Prop :=
  match ev with
  | Calibrate duration => (0 < duration)%Q /\ (duration <= 1)%Q
  | Capture timeout phrase_time_limit =>
      (0 < timeout)%Q /\ (timeout <= 15)%Q /\ phrase_time_limit = 5%Q
  | Wait secs => (0 < secs)%Q /\ (secs <= 5)%Q
  | _ => True
  end.

(** The initial timeout is left to its default, or is an int below
    [bound]. *)
Definition int_timeout (bound : Z) (initial_timeout : option Q) : Prop :=
  match initial_timeout with
  | None => True
  | Some t => exists n : Z, t = inject_Z n /\ (n < bound)%Z
  end.

(** The answers [listen_to_speech] may give. *)
Definition answer_ok (U : Runtime) (a : heard) : Prop :=
  match a with
  | HeardText s => s <> [] /\ at_ends (fun c => isspace U c = false) s
  | HeardNone => True
  | HeardRaised _ => False
  | HeardOutOfFuel => False
  end.

(** Attempts in which the microphone opens and nothing is heard, something
    is heard that cannot be understood, and "hello" is understood. *)
Definition attempt_quiet : attempt :=
  {| flag_at_attempt := false; microphone := MicOpened; calibrated := true;
     captured := false; recognized := UnknownValueError |}.

Definition attempt_mumble : attempt :=
  {| flag_at_attempt := false; microphone := MicOpened; calibrated := true;
     captured := true; recognized := UnknownValueError |}.

Definition attempt_hello : attempt :=
  {| flag_at_attempt := false; microphone := MicOpened; calibrated := true;
     captured := true; recognized := Recognized (lit " hello ") |}.

Definition world_mumble_then_hello : nat -> attempt :=
  fun k => if (k <? 1)%nat then attempt_mumble else attempt_hello.

(** The number of messages sent in a list of effects of the server. *)
Definition is_send (ef : App.effect) : bool :=
  match ef with App.SendJson _ _ => true | _ => false end.

Definition sends (effects : list App.effect) : nat :=
  length (filter is_send effects).

(** The effect concerns no channel other than [ws]. *)
Definition on_channel (ws : App.websocket) (ef : App.effect) : Prop :=
  match ef with
  | App.SendJson w _ => w = ws
  | App.Close w => w = ws
  | _ => True
  end.

(** A text message of a client, and the signal of its going away. *)
Definition text_message : pyobj :=
  PyDict [(lit "type", PyStr (lit "text")); (lit "text", PyStr (lit "Hello"))].

Definition client_gone : App.received := App.RecvRaises App.WebSocketDisconnect.

(** An attempt in which the microphone opens and calibrates, and nothing is
    heard before the timeout; the shutdown flag is clear. *)
Definition quiet (w : attempt) : Prop :=
  flag_at_attempt w = false /\ microphone w = MicOpened
  /\ calibrated w = true /\ captured w = false.


(** ** Strings *)

Section StringFacts.

Variable U : Runtime.

Lemma prefix_of_refl s : prefix_of s s.
Proof. exists []. now rewrite app_nil_r. Qed.

Lemma prefix_of_trans p q s : prefix_of p q -> prefix_of q s -> prefix_of p s.
Proof.
  intros [t Ht] [u Hu]. exists (t ++ u). subst. now rewrite app_assoc.
Qed.

Lemma prefix_of_nil s : prefix_of [] s.
Proof. now exists s. Qed.

Lemma prefix_of_cons c p s : prefix_of p s -> prefix_of (c :: p) (c :: s).
Proof. intros [t Ht]. exists t. now subst. Qed.

Lemma prefix_of_firstn n s : prefix_of (firstn n s) s.
Proof. exists (skipn n s). symmetry. apply firstn_skipn. Qed.

Lemma prefix_of_slice s m : prefix_of (slice_to s m) s.
Proof. unfold slice_to. destruct (0 <=? m)%Z; apply prefix_of_firstn. Qed.

Lemma prefix_of_rsplit1_head s : prefix_of (rsplit1_head s) s.
Proof.
  induction s as [| c r IH]; simpl.
  - apply prefix_of_nil.
  - destruct (has_space r).
    + now apply prefix_of_cons.
    + destruct (c =? SPACE)%N; [apply prefix_of_nil | apply prefix_of_refl].
Qed.

Lemma prefix_of_Forall (P : N -> Prop) p s :
  prefix_of p s -> Forall P s -> Forall P p.
Proof. intros [t ->] H. now apply Forall_app in H. Qed.

Lemma prefix_of_head p s c :
  prefix_of p s -> hd_error p = Some c -> hd_error s = Some c.
Proof. intros [t ->] H. destruct p; [discriminate | exact H]. Qed.

(** What [lstrip] cuts off is in front. *)
Lemma lstrip_suffix s : exists pre, s = pre ++ lstrip U s.
Proof.
  induction s as [| c r [pre IH]]; simpl.
  - now exists [].
  - destruct (isspace U c).
    + exists (c :: pre). simpl. now f_equal.
    + now exists [].
Qed.

Lemma lstrip_head s c : hd_error (lstrip U s) = Some c -> isspace U c = false.
Proof.
  induction s as [| a r IH]; simpl; [discriminate |].
  destruct (isspace U a) eqn:E; [exact IH |].
  simpl. intros [= <-]. exact E.
Qed.

Lemma lstrip_fixed s :
  (forall c, hd_error s = Some c -> isspace U c = false) -> lstrip U s = s.
Proof.
  destruct s as [| a r]; simpl; [reflexivity |].
  intros H. now rewrite (H a eq_refl).
Qed.

Lemma rstrip_prefix s : prefix_of (rstrip U s) s.
Proof.
  unfold rstrip. destruct (lstrip_suffix (rev s)) as [pre H].
  exists (rev pre).
  rewrite <- rev_app_distr, <- H. symmetry. apply rev_involutive.
Qed.

Lemma rstrip_last s c :
  hd_error (rev (rstrip U s)) = Some c -> isspace U c = false.
Proof. unfold rstrip. rewrite rev_involutive. apply lstrip_head. Qed.

Lemma rstrip_fixed s :
  (forall c, hd_error (rev s) = Some c -> isspace U c = false) ->
  rstrip U s = s.
Proof.
  intros H. unfold rstrip. rewrite (lstrip_fixed _ H). apply rev_involutive.
Qed.

Lemma strip_prefix_lstrip s : prefix_of (strip U s) (lstrip U s).
Proof. apply rstrip_prefix. Qed.

Lemma strip_head s c : hd_error (strip U s) = Some c -> isspace U c = false.
Proof.
  intros H. apply (lstrip_head s).
  exact (prefix_of_head (strip_prefix_lstrip s) H).
Qed.

Lemma strip_last s c :
  hd_error (rev (strip U s)) = Some c -> isspace U c = false.
Proof. apply rstrip_last. Qed.

Lemma strip_Forall (P : N -> Prop) s : Forall P s -> Forall P (strip U s).
Proof.
  intros H. apply (prefix_of_Forall (strip_prefix_lstrip s)).
  destruct (lstrip_suffix s) as [pre E]. rewrite E in H.
  now apply Forall_app in H.
Qed.

Lemma strip_fixed s :
  (forall c, hd_error s = Some c -> isspace U c = false) ->
  (forall c, hd_error (rev s) = Some c -> isspace U c = false) ->
  strip U s = s.
Proof.
  intros Hh Hl. unfold strip. rewrite (lstrip_fixed _ Hh).
  now apply rstrip_fixed.
Qed.

Lemma filter_fixed (f : N -> bool) s :
  Forall (fun c => f c = true) s -> filter f s = s.
Proof.
  induction 1 as [| c r Hc _ IH]; simpl; [reflexivity |].
  now rewrite Hc, IH.
Qed.

Lemma filter_Forall (f : N -> bool) s :
  Forall (fun c => f c = true) (filter f s).
Proof. apply Forall_forall. intros c H. now apply filter_In in H. Qed.

Lemma clean_nil : clean U [].
Proof. repeat split; [constructor | discriminate | discriminate]. Qed.

Lemma clean_strip_filter s : clean U (strip U (filter (keep U) s)).
Proof.
  repeat split.
  - apply strip_Forall, filter_Forall.
  - apply strip_head.
  - apply strip_last.
Qed.

Lemma keep_dot : keep U 46%N = true.
Proof. reflexivity. Qed.

Lemma isspace_dot : isspace U 46%N = false.
Proof. reflexivity. Qed.

(** The truncated form: an initial segment of a clean string followed by the
    ellipsis. *)
Lemma clean_ellipsis p s : clean U s -> prefix_of p s -> clean U (p ++ lit "...").
Proof.
  intros (Hk & Hh & _) Hp. repeat split.
  - apply Forall_app. split; [exact (prefix_of_Forall Hp Hk) |].
    repeat constructor.
  - intros c H. destruct p as [| a p'].
    + simpl in H. injection H as <-. apply isspace_dot.
    + apply Hh. apply (prefix_of_head Hp). exact H.
  - intros c. rewrite rev_app_distr. simpl. intros [= <-]. apply isspace_dot.
Qed.

Lemma sanitize_text_clean text max_length :
  clean U (sanitize_text U text max_length).
Proof.
  unfold sanitize_text.
  destruct (negb (truthy text) || negb (isinstance_str text));
    [apply clean_nil |].
  destruct text; try apply clean_nil.
  cbv zeta.
  destruct (max_length <? _)%Z.
  - apply clean_ellipsis with (s := strip U (filter (keep U) s)).
    + apply clean_strip_filter.
    + eapply prefix_of_trans;
        [apply prefix_of_rsplit1_head | apply prefix_of_slice].
  - apply clean_strip_filter.
Qed.

(** On a clean string that is not too long [sanitize_text] changes
    nothing. *)
Lemma sanitize_text_fixed s max_length :
  clean U s -> (Z.of_nat (length s) <= max_length)%Z ->
  sanitize_text U (PyStr s) max_length = s.
Proof.
  intros (Hk & Hh & Hl) Hlen. unfold sanitize_text.
  destruct s as [| a r]; [reflexivity |].
  cbn [truthy isinstance_str negb orb]. cbv zeta.
  rewrite (filter_fixed _ Hk), (strip_fixed _ Hh Hl).
  destruct (Z.ltb_spec max_length (Z.of_nat (length (a :: r))));
    [lia | reflexivity].
Qed.

End StringFacts.

(** ** sanitize_text *)

(** C10: for every input, [sanitize_text] returns a string whose characters
    are all printable or whitespace and which neither starts nor ends with
    whitespace; on an input that is not a string, and on the empty string, it
    returns the empty string.  The function is total: it is defined on every
    Python value and every [max_length]. *)
Theorem sanitize_text_output_form (U : Runtime) (text : pyobj)
    (max_length : Z) :
  let r := sanitize_text U text max_length in
  Forall (fun c => isprintable U c = true \/ isspace U c = true) r
  /\ at_ends (fun c => isspace U c = false) r
  /\ match text with
     | PyStr (_ :: _) => True
     | _ => r = []
     end.
Proof.
  intros r. destruct (sanitize_text_clean U text max_length) as (Hk & Hh & Hl).
  fold r in Hk, Hh, Hl. repeat split.
  - eapply Forall_impl; [| exact Hk].
    intros c H. unfold keep in H. now apply orb_true_iff in H.
  - destruct (hd_error r) eqn:E; [now apply Hh | exact I].
  - destruct (hd_error (rev r)) eqn:E; [now apply Hl | exact I].
  - subst r. destruct text as [| b | n | [| a s] | l | d].
    all: try exact I.
    all: unfold sanitize_text; cbn [isinstance_str negb];
      rewrite ?orb_true_r; reflexivity.
Qed.

(** C3, as the code has it: whenever the result of [sanitize_text] is at
    most [max_length] characters long (so whenever nothing was cut, and also
    after a cut that left room for the ellipsis), sanitizing it again gives
    the same string. *)
Theorem sanitize_text_idempotent_within_limit (U : Runtime)
    (text : pyobj) (max_length : Z) :
  (Z.of_nat (length (sanitize_text U text max_length)) <= max_length)%Z ->
  sanitize_text U (PyStr (sanitize_text U text max_length)) max_length
  = sanitize_text U text max_length.
Proof.
  intros H. apply sanitize_text_fixed; [apply sanitize_text_clean | exact H].
Qed.

Lemma sanitize_text_idempotent_within_limit_witness :
  (Z.of_nat (length (sanitize_text latin1 (PyStr (lit "  Hello,  world! "))
                       500)) <= 500)%Z
  /\ sanitize_text latin1
       (PyStr (sanitize_text latin1 (PyStr (lit "  Hello,  world! ")) 500))
       500
     = sanitize_text latin1 (PyStr (lit "  Hello,  world! ")) 500.
Proof.
  assert (H : (Z.of_nat (length (sanitize_text latin1
                 (PyStr (lit "  Hello,  world! ")) 500)) <= 500)%Z)
    by (vm_compute; discriminate).
  split; [exact H |].
  exact (@sanitize_text_idempotent_within_limit latin1
           (PyStr (lit "  Hello,  world! ")) 500 H).
Defined.

(** C3 fails as stated: on a text of 501 characters whose last space is at
    position 499 the first pass returns 498 letters and the ellipsis (501
    characters, still over the limit of 500), and the second pass cuts that
    again and returns 498 letters and five dots. *)
Lemma sanitize_text_not_idempotent :
  sanitize_text latin1 (PyStr long_text) sanitize_default_max_length
    = repeat 97%N 498 ++ lit "..."
  /\ sanitize_text latin1
       (PyStr (sanitize_text latin1 (PyStr long_text)
                 sanitize_default_max_length))
       sanitize_default_max_length
     = repeat 97%N 498 ++ lit "....."
  /\ sanitize_text latin1
       (PyStr (sanitize_text latin1 (PyStr long_text)
                 sanitize_default_max_length))
       sanitize_default_max_length
     <> sanitize_text latin1 (PyStr long_text) sanitize_default_max_length.
Proof.
  assert (E1 : sanitize_text latin1 (PyStr long_text)
                 sanitize_default_max_length = repeat 97%N 498 ++ lit "...")
    by (vm_compute; reflexivity).
  rewrite E1.
  assert (E2 : sanitize_text latin1 (PyStr (repeat 97%N 498 ++ lit "..."))
                 sanitize_default_max_length = repeat 97%N 498 ++ lit ".....")
    by (vm_compute; reflexivity).
  rewrite E2. repeat split.
  intros H. apply (f_equal (@length N)) in H. vm_compute in H. discriminate H.
Qed.

(** ** process_text *)

Lemma py_min_cap d : (py_min (d * 2) MAX_DELAY <= MAX_DELAY)%Q.
Proof.
  unfold py_min. destruct (Qle_bool (d * 2) MAX_DELAY) eqn:E.
  - now apply Qle_bool_iff.
  - apply Qle_refl.
Qed.

Lemma py_min_grows d :
  (0 <= d)%Q -> (d <= MAX_DELAY)%Q -> (d <= py_min (d * 2) MAX_DELAY)%Q.
Proof.
  intros H0 H. unfold py_min.
  destruct (Qle_bool (d * 2) MAX_DELAY); [lra | exact H].
Qed.

Lemma sleep_ok_nonneg U d : sleep_ok U d = true -> (0 <= d)%Q.
Proof.
  unfold sleep_ok. intros H. apply andb_true_iff in H.
  now apply Qle_bool_iff.
Qed.


(** The runtime of the examples sleeps any duration up to 9 * 10^9
    seconds. *)
Lemma latin1_sleeps_up_to bound :
  (bound <= 9000000000)%Q -> sleeps_up_to latin1 bound.
Proof.
  intros Hb d H0 Hd. unfold sleep_ok. apply andb_true_iff. split.
  - cbn [sleep_overflows latin1]. unfold cpython_sleep_overflows.
    destruct (Qle_bool _ (Qabs d)) eqn:E; [| reflexivity].
    apply Qle_bool_iff in E. rewrite (Qabs_pos d H0) in E.
    assert (Hlt : (9000000000 < 9223372036854775808 # 1000000000)%Q)
      by reflexivity.
    lra.
  - now apply Qle_bool_iff.
Qed.

Section ProcessTextFacts.

Variable U : Runtime.
Variable service : nat -> api_outcome.
Variable shutdown_flag : nat -> bool.
Variable max_retries : Z.

Local Abbreviation loop := (retry_loop U service shutdown_flag max_retries).

(** The fuel handed to the loop is enough: the loop is never cut short. *)
Lemma retry_loop_terminates fuel : forall retry_count delay ncalls slept,
  (max_retries - retry_count <= Z.of_nat fuel)%Z ->
  result (loop fuel retry_count delay ncalls slept) <> OutOfFuel.
Proof.
  induction fuel as [| fuel IH]; intros rc d k slept Hf; simpl.
  - destruct (Z.ltb_spec rc max_retries); [lia |]. simpl. discriminate.
  - destruct ((rc <? max_retries)%Z && negb (shutdown_flag k));
      [| simpl; discriminate].
    assert (Hn : (max_retries - (rc + 1) <= Z.of_nat fuel)%Z) by lia.
    destruct (service k) as [[| c m] | | |]; simpl;
      repeat match goal with
             | |- context [if ?b then _ else _] => destruct b; simpl
             end;
      try discriminate; now apply IH.
Qed.

Theorem process_text_terminates text initial_delay :
  result (process_text U service shutdown_flag max_retries text initial_delay)
  <> OutOfFuel.
Proof.
  unfold process_text.
  destruct (validate_input U text validate_default_max_length) as [v m].
  destruct (negb v); simpl; [discriminate |].
  apply retry_loop_terminates. lia.
Qed.



(** The delays the loop sleeps from a delay within the cap. *)
Lemma retry_loop_backoff : forall fuel retry_count delay k slept,
  (delay <= MAX_DELAY)%Q ->
  exists new,
    sleeps (loop fuel retry_count delay k slept) = slept ++ new
    /\ Forall (fun x => (delay <= x)%Q /\ (x <= MAX_DELAY)%Q) new
    /\ StronglySorted Qle new
    /\ match new with [] => True | x :: _ => x = delay end.
Proof.
  assert (Hnone : forall slept d, exists new : list Q,
            slept = slept ++ new
            /\ Forall (fun x => (d <= x)%Q /\ (x <= MAX_DELAY)%Q) new
            /\ StronglySorted Qle new
            /\ match new with [] => True | x :: _ => x = d end).
  { intros slept d. exists []. rewrite app_nil_r.
    repeat split; constructor. }
  induction fuel as [| fuel IH]; intros rc d k slept Hd; simpl.
  - destruct (_ && _); simpl; apply Hnone.
  - destruct (_ && _); simpl; [| apply Hnone].
    destruct (service k) as [[| c m] | | |]; simpl;
      try apply Hnone;
      destruct (rc + 1 >=? max_retries)%Z; simpl;
      try apply Hnone; try (now apply IH).
    destruct (sleep_ok U d) eqn:Hs; simpl.
    + destruct (IH (rc + 1)%Z (py_min (d * 2) MAX_DELAY) (S k) (slept ++ [d])
                  (py_min_cap d)) as (new & E & Hall & Hsort & _).
      assert (Hg : (d <= py_min (d * 2) MAX_DELAY)%Q).
      { apply py_min_grows; [| exact Hd]. exact (sleep_ok_nonneg _ _ Hs). }
      exists (d :: new). rewrite E, <- app_assoc. simpl.
      assert (Hall' : Forall (fun x => (d <= x)%Q /\ (x <= MAX_DELAY)%Q) new).
      { eapply Forall_impl; [| exact Hall]. simpl. intros x [A B].
        split; [now apply Qle_trans with (2 := A) | exact B]. }
      repeat split.
      * constructor; [split; [apply Qle_refl | exact Hd] | exact Hall'].
      * constructor; [exact Hsort |].
        eapply Forall_impl; [| exact Hall']. now intros x [A _].
    + exists [d]. repeat split.
      * repeat constructor; [apply Qle_refl | exact Hd].
      * repeat constructor.
Qed.

End ProcessTextFacts.

Lemma validate_input_valid_is_str U text max_length :
  fst (validate_input U text max_length) = true ->
  exists s, text = PyStr s
            /\ validate_input U text max_length = (true, strip U s).
Proof.
  unfold validate_input.
  destruct (negb (truthy text) || negb (isinstance_str text));
    [discriminate |].
  destruct text as [| b | n | s | l | d]; try discriminate.
  cbv zeta. intros H. exists s. split; [reflexivity |].
  destruct (negb (truthy (PyStr (strip U s)))); [discriminate |].
  destruct (max_length <? _)%Z; [discriminate | reflexivity].
Qed.

Lemma validate_input_too_long U s max_length :
  (0 <= max_length)%Z ->
  (max_length < Z.of_nat (length (strip U s)))%Z ->
  validate_input U (PyStr s) max_length = (false, msg_too_long max_length).
Proof.
  intros H0 H. unfold validate_input.
  destruct s as [| a r]; [simpl in H; lia |].
  cbn [truthy isinstance_str negb orb]. cbv zeta.
  destruct (strip U (a :: r)) as [| b t] eqn:E; [simpl in H; lia |].
  cbn [truthy negb].
  destruct (Z.ltb_spec max_length (Z.of_nat (length (b :: t))));
    [reflexivity | lia].
Qed.




(** C5, as the code has it: when the configured initial delay does not
    exceed the maximum delay of 10 seconds, the delays [process_text] passes
    to [time.sleep] during one call never decrease, start at the initial
    delay and never exceed the maximum, whatever the service answers. *)
Theorem process_text_backoff (U : Runtime) (service : nat -> api_outcome)
    (shutdown_flag : nat -> bool) (max_retries : Z) (text : pyobj)
    (initial_delay : Q) :
  (initial_delay <= MAX_DELAY)%Q ->
  let slept :=
    sleeps (process_text U service shutdown_flag max_retries text
              initial_delay) in
  StronglySorted Qle slept
  /\ Forall (fun x => (x <= MAX_DELAY)%Q) slept
  /\ match slept with [] => True | x :: _ => x = initial_delay end.
Proof.
  intros Hd slept. subst slept. unfold process_text.
  destruct (validate_input U text validate_default_max_length) as [v m].
  destruct (negb v); simpl.
  - repeat split; constructor.
  - destruct (@retry_loop_backoff U service shutdown_flag max_retries
                (Z.to_nat max_retries) 0%Z initial_delay 0%nat [] Hd)
      as (new & -> & Hall & Hsort & Hhd).
    simpl. repeat split; trivial.
    eapply Forall_impl; [| exact Hall]. now intros x [_ B].
Qed.

Lemma process_text_backoff_witness :
  (1 <= MAX_DELAY)%Q
  /\ let slept :=
       sleeps (process_text latin1 (rate_limited 4 (Completion [lit "Hi"]))
                 flag_clear 6 (PyStr (lit "hello")) 1) in
     StronglySorted Qle slept
     /\ Forall (fun x => (x <= MAX_DELAY)%Q) slept
     /\ match slept with [] => True | x :: _ => x = 1 end.
Proof.
  assert (Hd : (1 <= MAX_DELAY)%Q) by (unfold Qle; simpl; lia).
  split; [exact Hd |].
  exact (@process_text_backoff latin1 (rate_limited 4 (Completion [lit "Hi"]))
           flag_clear 6 (PyStr (lit "hello")) 1 Hd).
Defined.

(** C5 fails as stated when the configured initial delay is above the
    maximum: from 20 seconds the call sleeps 20 and then 10 seconds, so the
    first delay exceeds the maximum and the delays decrease. *)
Lemma process_text_backoff_counterexample :
  sleeps (process_text latin1 (rate_limited 3 (Completion [lit "Hi"]))
            flag_clear 3 (PyStr (lit "hello")) 20) = [20; 10]
  /\ ~ (20 <= MAX_DELAY)%Q
  /\ ~ (20 <= 10)%Q.
Proof.
  repeat split; try reflexivity;
    unfold MAX_DELAY, Qle; simpl; lia.
Qed.

(** C6, as the code has it: every text whose stripped form (the text without
    the whitespace at its ends) is longer than the maximum of 1000 characters
    is rejected by [process_text] with the message naming that maximum, and
    no call is made to the chat-completion service. *)
Theorem process_text_rejects_long_text (U : Runtime)
    (service : nat -> api_outcome) (shutdown_flag : nat -> bool)
    (max_retries : Z) (s : pystr) (initial_delay : Q) :
  (1000 < Z.of_nat (length (strip U s)))%Z ->
  process_text U service shutdown_flag max_retries (PyStr s) initial_delay
  = {| result :=
         Returned (lit "Your message is too long. Please keep it under 1000 characters.");
       calls := 0; sleeps := [] |}.
Proof.
  intros H. unfold process_text.
  rewrite validate_input_too_long; [reflexivity | discriminate | exact H].
Qed.

Lemma process_text_rejects_long_text_witness :
  (1000 < Z.of_nat (length (strip latin1 (repeat 97%N 1001))))%Z
  /\ process_text latin1 (rate_limited 0 (Completion [lit "Hi"])) flag_clear 3
       (PyStr (repeat 97%N 1001)) 1
     = {| result :=
            Returned (lit "Your message is too long. Please keep it under 1000 characters.");
          calls := 0; sleeps := [] |}.
Proof.
  assert (H : (1000 < Z.of_nat (length (strip latin1 (repeat 97%N 1001))))%Z)
    by (vm_compute; reflexivity).
  split; [exact H |].
  exact (@process_text_rejects_long_text latin1
           (rate_limited 0 (Completion [lit "Hi"])) flag_clear 3
           (repeat 97%N 1001) 1 H).
Defined.

(** C6 fails as stated on a text that is too long only because of the
    whitespace at its ends: a letter followed by 1000 spaces has 1001
    characters, is accepted, and the service is called. *)
Lemma process_text_accepts_padded_text :
  length padded_text = 1001%nat
  /\ process_text latin1 (rate_limited 0 (Completion [lit "Hi"])) flag_clear 3
       (PyStr padded_text) 1
     = {| result := Returned (lit "Hi"); calls := 1; sleeps := [] |}.
Proof. split; vm_compute; reflexivity. Qed.

(** C9: for every valid input text, if the shutdown flag is already set when
    the retry loop of [process_text] starts, no call is made to the
    chat-completion service and the fixed string "I'm having trouble
    processing your request. Please try again later." is returned. *)
Theorem process_text_shutdown_before_loop (U : Runtime)
    (service : nat -> api_outcome) (shutdown_flag : nat -> bool)
    (max_retries : Z) (text : pyobj) (initial_delay : Q) :
  fst (validate_input U text validate_default_max_length) = true ->
  shutdown_flag 0%nat = true ->
  process_text U service shutdown_flag max_retries text initial_delay
  = {| result :=
         Returned (lit "I'm having trouble processing your request. Please try again later.");
       calls := 0; sleeps := [] |}.
Proof.
  intros Hv Hflag. unfold process_text.
  destruct (validate_input_valid_is_str _ _ _ Hv) as (s & -> & ->).
  cbn [negb].
  destruct (Z.to_nat max_retries); simpl;
    rewrite Hflag, andb_false_r; reflexivity.
Qed.

Lemma process_text_shutdown_before_loop_witness :
  fst (validate_input latin1 (PyStr (lit "hello")) validate_default_max_length)
    = true
  /\ flag_set 0%nat = true
  /\ process_text latin1 (rate_limited 0 (Completion [lit "Hi"])) flag_set 3
       (PyStr (lit "hello")) 1
     = {| result :=
            Returned (lit "I'm having trouble processing your request. Please try again later.");
          calls := 0; sleeps := [] |}.
Proof.
  split; [reflexivity |]. split; [reflexivity |].
  exact (@process_text_shutdown_before_loop latin1
           (rate_limited 0 (Completion [lit "Hi"])) flag_set 3
           (PyStr (lit "hello")) 1 eq_refl eq_refl).
Defined.

(** ** The conversation loop *)

Lemma wants_exit_nonempty U s : wants_exit U s = true -> s <> [].
Proof. intros H ->. vm_compute in H. discriminate H. Qed.

(** C8, as the code has it: whenever the loop is entered and the recognized
    text contains an exit phrase (as the text "goodbye" does), and the
    shutdown flag is not found set when listening returns, the farewell is
    spoken and the loop ends: whatever turns would follow, the events are the
    one listening attempt and the farewell, and nothing after them. *)
Theorem exit_phrase_ends_loop (U : Runtime) (t : turn)
    (rest : list turn) (st : loop_state) (s : pystr) :
  conversation_active st = true ->
  flag_at_loop t = false ->
  listened t = Heard (PyStr s) ->
  flag_after_listen t = false ->
  wants_exit U s = true ->
  main_loop U (t :: rest) st
    = [Listen; Speak (lit "Goodbye! Have a great day!")]
  /\ wants_exit U (lit "goodbye") = true.
Proof.
  intros Ha Hf Hl Hs Hw. split; [| reflexivity].
  pose proof (@wants_exit_nonempty U s Hw) as Hne.
  simpl. rewrite Ha, Hf. simpl. unfold loop_body. rewrite Hl, Hs.
  destruct s as [| a r]; [contradiction |].
  cbn [truthy]. rewrite Hw. reflexivity.
Qed.

Lemma exit_phrase_ends_loop_witness :
  main_loop latin1
    [turn_hearing (lit "Okay, Goodbye") false; turn_hearing (lit "hello") false]
    initial_loop_state
  = [Listen; Speak (lit "Goodbye! Have a great day!")].
Proof.
  exact (proj1 (@exit_phrase_ends_loop latin1
                  (turn_hearing (lit "Okay, Goodbye") false)
                  [turn_hearing (lit "hello") false] initial_loop_state
                  (lit "Okay, Goodbye")
                  eq_refl eq_refl eq_refl eq_refl eq_refl)).
Defined.

(** C8 fails as stated when a shutdown signal arrives while the program
    listens: "goodbye" is recognized, the flag is found set (line 422) and
    the loop is left without a farewell. *)
Lemma exit_phrase_without_farewell :
  wants_exit latin1 (lit "goodbye") = true
  /\ main_loop latin1
       [turn_hearing (lit "goodbye") true; turn_hearing (lit "hello") false]
       initial_loop_state
     = [Listen].
Proof. split; reflexivity. Qed.

(** ** Temporary files *)

Lemma pystr_eqb_refl p : pystr_eqb p p = true.
Proof. induction p as [| c r IH]; simpl; [| rewrite N.eqb_refl]; auto. Qed.

Lemma path_exists_create fs p : path_exists (create_file fs p) p = true.
Proof.
  unfold create_file. destruct (path_exists fs p) eqn:E; [exact E |].
  simpl. now rewrite pystr_eqb_refl.
Qed.

Lemma path_exists_remove fs p : path_exists (remove_file fs p) p = false.
Proof.
  unfold path_exists, remove_file.
  induction fs as [| q r IH]; simpl; [reflexivity |].
  destruct (pystr_eqb p q) eqn:E; simpl; [exact IH |].
  now rewrite E, IH.
Qed.

(** The CLI's [speak_text] removes its temporary file on every path on which
    [os.unlink] does not fail. *)
Lemma speak_text_removes_temp_file U e fs text rate volume :
  mktemp e <> [] ->
  path_exists fs (mktemp e) = false ->
  unlink_ok e = true ->
  path_exists (files (speak_text U e fs text rate volume)) (mktemp e) = false.
Proof.
  intros Hname Hfresh Hunlink. unfold speak_text.
  destruct (negb (truthy (PyStr (sanitize_text U text _)))); [exact Hfresh |].
  assert (Hfin : forall fs',
    path_exists
      (if truthy (PyStr (mktemp e)) && path_exists fs' (mktemp e)
       then if unlink_ok e then remove_file fs' (mktemp e) else fs'
       else fs') (mktemp e) = false).
  { intros fs'. rewrite Hunlink.
    destruct (mktemp e) as [| c r] eqn:E; [contradiction |].
    cbn [truthy andb].
    destruct (path_exists fs' (c :: r)) eqn:P;
      [apply path_exists_remove | exact P]. }
  destruct (tts_save e) as [size | created].
  - cbv zeta.
    destruct (negb (path_exists _ _) || _); [apply Hfin |].
    destruct (negb (sf_read e)); [apply Hfin |].
    destruct (sd_play e); [apply Hfin |].
    destruct (system_player e); apply Hfin.
  - cbn iota. apply Hfin.
Qed.

(** The server's [text_to_speech] never removes the temporary file it
    creates: whenever the file could be created it still exists when the
    call returns, whether the synthesis succeeded or failed. *)
Lemma text_to_speech_keeps_temp_file e text fs name :
  App.new_mp3 e = App.Ok name ->
  path_exists (fst (fst (App.text_to_speech e text fs))) name = true.
Proof.
  intros H. unfold App.text_to_speech. rewrite H.
  destruct (App.gtts_save e); simpl; apply path_exists_create.
Qed.

(** C1 on the server: a call of [text_to_speech] whose synthesis succeeds
    returns the audio and leaves its temporary file in the filesystem. *)
Theorem text_to_speech_leaves_temp_file :
  App.text_to_speech env_ok (PyStr (lit "Hello")) []
  = ([lit "/tmp/tmpb2.mp3"],
     [App.Synthesize (PyStr (lit "Hello"))],
     PyStr (lit "SUQzBAAAAAAA")).
Proof. reflexivity. Qed.

(** ** The WebSocket handler *)

Lemma audio_try_keeps_connections ws e st st1 done x :
  App.audio_try ws e st = (st1, done, x) ->
  App.active_connections st1 = App.active_connections st
  /\ App.closed st1 = App.closed st.
Proof.
  unfold App.audio_try.
  destruct (App.new_wav e); [| intros [= <- _ _]; now split].
  destruct (App.b64decode e); [| intros [= <- _ _]; now split].
  destruct (App.atranscribe e); [| intros [= <- _ _]; now split].
  destruct (App.py_getitem _ _); [| intros [= <- _ _]; now split].
  destruct (App.text_to_speech _ _ _) as [[fs synth] audio].
  intros [= <- _ _]; now split.
Qed.

Lemma loop_body_keeps_connections ws r e st st1 done x :
  App.loop_body ws r e st = (st1, done, x) ->
  App.active_connections st1 = App.active_connections st
  /\ App.closed st1 = App.closed st.
Proof.
  unfold App.loop_body.
  destruct r as [y | [data | y]]; try (intros [= <- _ _]; now split).
  destruct (App.py_get data "type" PyNone) as [type | y];
    [| intros [= <- _ _]; now split].
  destruct (App.eq_str type "audio").
  - destruct (App.py_get data "audio" PyNone) as [a | y];
      [| intros [= <- _ _]; now split].
    destruct (negb (truthy a)); [intros [= <- _ _]; now split |].
    destruct (App.audio_try ws e st) as [[st2 d2] [y |]] eqn:E;
      intros [= <- _ _]; exact (audio_try_keeps_connections _ _ _ E).
  - destruct (App.eq_str type "text"); [| intros [= <- _ _]; now split].
    destruct (App.py_get data "text" (PyStr [])) as [t | y];
      [| intros [= <- _ _]; now split].
    destruct (App.text_to_speech _ _ _) as [[fs synth] audio].
    intros [= <- _ _]; now split.
Qed.

Lemma serve_without_disconnect ws : forall inbox st,
  (forall x, loop_exception ws inbox st = Some x ->
             App.is_disconnect x = false) ->
  App.active_connections (fst (fst (App.serve ws inbox st)))
  = App.active_connections st.
Proof.
  induction inbox as [| [r e] rest IH]; intros st H; simpl; [reflexivity |].
  simpl in H.
  destruct (App.loop_body ws r e st) as [[st1 done] [x |]] eqn:E.
  - rewrite (H x eq_refl). simpl.
    exact (proj1 (loop_body_keeps_connections _ _ _ _ E)).
  - specialize (IH st1 H).
    destruct (App.serve ws rest st1) as [[st' more] s]. simpl in *.
    rewrite IH. exact (proj1 (loop_body_keeps_connections _ _ _ _ E)).
Qed.

(** C2, as the code has it.  An exception raised inside the [try] block of
    the audio branch is caught and reported by an error message on the same
    channel, and when that message is sent the handler goes on to the next
    message with the channel in the connection set and not closed.  An
    exception that leaves the body of the loop and is not a disconnect
    (undecodable JSON, a message that is not an object, a failed send) makes
    the handler close the channel and stop, with no error message; the
    channel stays in the set.  The set changes only on a disconnect signal,
    which removes the channel from it. *)
Theorem websocket_error_policy (ws : App.websocket) :
  (forall data type audio_base64 e st st1 done x rest,
      App.py_get data "type" PyNone = App.Ok type ->
      App.eq_str type "audio" = true ->
      App.py_get data "audio" PyNone = App.Ok audio_base64 ->
      truthy audio_base64 = true ->
      App.audio_try ws e st = (st1, done, Some x) ->
      App.send_error e = None ->
      App.serve ws ((App.RecvText (App.Ok data), e) :: rest) st
      = (let '(st', more, s) := App.serve ws rest st1 in
         (st', (done ++ [App.SendJson ws (App.msg_audio_error x)]) ++ more, s))
      /\ App.active_connections st1 = App.active_connections st
      /\ App.closed st1 = App.closed st)
  /\ (forall r e st st1 done x rest,
        App.loop_body ws r e st = (st1, done, Some x) ->
        App.is_disconnect x = false ->
        App.serve ws ((r, e) :: rest) st
        = ({| App.active_connections := App.active_connections st;
              App.closed := ws :: App.closed st;
              App.files := App.files st1 |},
           done ++ [App.Close ws], App.Finished))
  /\ (forall r e st st1 done x rest remaining,
        App.loop_body ws r e st = (st1, done, Some x) ->
        App.is_disconnect x = true ->
        App.list_remove (App.active_connections st) ws = Some remaining ->
        App.serve ws ((r, e) :: rest) st
        = ({| App.active_connections := remaining;
              App.closed := App.closed st;
              App.files := App.files st1 |}, done, App.Finished))
  /\ (forall inbox st,
        (forall x, loop_exception ws inbox st = Some x ->
                   App.is_disconnect x = false) ->
        App.active_connections (fst (fst (App.serve ws inbox st)))
        = App.active_connections st).
Proof.
  repeat split.
  - simpl. unfold App.loop_body. rewrite H, H0, H1, H2, H3, H4. reflexivity.
  - exact (proj1 (audio_try_keeps_connections _ _ _ H3)).
  - exact (proj2 (audio_try_keeps_connections _ _ _ H3)).
  - intros r e st st1 done x rest Hb Hx. simpl. rewrite Hb, Hx.
    destruct (loop_body_keeps_connections _ _ _ _ Hb) as [-> ->].
    reflexivity.
  - intros r e st st1 done x rest remaining Hb Hx Hr. simpl. rewrite Hb, Hx.
    destruct (loop_body_keeps_connections _ _ _ _ Hb) as [Ha ->].
    unfold App.disconnect. rewrite Ha, Hr. reflexivity.
  - apply serve_without_disconnect.
Qed.

Lemma websocket_error_policy_witness :
  App.serve 1%nat
    [(App.RecvText (App.Ok audio_message), env_transcribe_fails);
     (App.RecvText (App.Ok audio_message), env_transcribe_fails)]
    server_connected
  = (let '(st', more, s) :=
       App.serve 1%nat
         [(App.RecvText (App.Ok audio_message), env_transcribe_fails)]
         (App.with_files server_connected [lit "/tmp/tmpa1.wav"]) in
     (st',
      ([App.Transcribe (lit "/tmp/tmpa1.wav")]
         ++ [App.SendJson 1%nat
               (App.msg_audio_error (App.Exception "Invalid file format."))])
        ++ more, s))
  /\ App.active_connections
       (App.with_files server_connected [lit "/tmp/tmpa1.wav"])
     = App.active_connections server_connected
  /\ App.closed (App.with_files server_connected [lit "/tmp/tmpa1.wav"])
     = App.closed server_connected.
Proof.
  exact (proj1 (websocket_error_policy 1%nat)
           audio_message (PyStr (lit "audio"))
           (PyStr (lit "UklGRiQAAABXQVZF")) env_transcribe_fails
           server_connected
           (App.with_files server_connected [lit "/tmp/tmpa1.wav"])
           [App.Transcribe (lit "/tmp/tmpa1.wav")]
           (App.Exception "Invalid file format.")
           [(App.RecvText (App.Ok audio_message), env_transcribe_fails)]
           eq_refl eq_refl eq_refl eq_refl eq_refl eq_refl).
Defined.

(** C2 fails as stated on a frame that is not JSON: [json.loads] raises, no
    error message is sent, the handler closes the channel and stops, and the
    next message of the client is never read. *)
Lemma bad_json_closes_channel :
  App.websocket_endpoint 1%nat
    [(bad_frame, env_ok); (App.RecvText (App.Ok audio_message), env_ok)]
    server_start
  = ({| App.active_connections := [1%nat]; App.closed := [1%nat];
        App.files := [] |},
     [App.Close 1%nat], App.Finished).
Proof. reflexivity. Qed.

(** A message whose audio field is missing or falsy in any way is answered
    with the no-audio error and nothing else is done. *)
Lemma loop_body_no_audio ws items e st :
  dict_get items (lit "type") = Some (PyStr (lit "audio")) ->
  match dict_get items (lit "audio") with
  | None => True
  | Some v => truthy v = false
  end ->
  App.loop_body ws (App.RecvText (App.Ok (PyDict items))) e st
  = (st, [App.SendJson ws App.msg_no_audio], App.send_reply e).
Proof.
  intros Ht Ha. unfold App.loop_body, App.py_get.
  rewrite Ht.
  change (App.eq_str (PyStr (lit "audio")) "audio") with true. cbn iota.
  destruct (dict_get items (lit "audio")) as [v |]; [rewrite Ha |]; reflexivity.
Qed.

(** C7: a message of type "audio" whose "audio" field is missing or empty is
    answered on its channel with exactly {"type": "error", "text": "No audio
    data received"}; the transcription service is not called, and nothing
    else is done. *)
Theorem no_audio_data_reply (ws : App.websocket)
    (items : list (pystr * pyobj)) (e : App.env) (st : App.server) :
  dict_get items (lit "type") = Some (PyStr (lit "audio")) ->
  dict_get items (lit "audio") = None
    \/ dict_get items (lit "audio") = Some (PyStr []) ->
  App.loop_body ws (App.RecvText (App.Ok (PyDict items))) e st
  = (st,
     [App.SendJson ws
        (PyDict [(lit "type", PyStr (lit "error"));
                 (lit "text", PyStr (lit "No audio data received"))])],
     App.send_reply e).
Proof.
  intros Ht Ha. apply loop_body_no_audio; [exact Ht |].
  destruct Ha as [-> | ->]; [exact I | reflexivity].
Qed.

Lemma no_audio_data_reply_witness :
  App.serve 1%nat
    [(App.RecvText (App.Ok (PyDict audio_message_without_data)), env_ok)]
    server_connected
  = (server_connected,
     [App.SendJson 1%nat
        (PyDict [(lit "type", PyStr (lit "error"));
                 (lit "text", PyStr (lit "No audio data received"))])],
     App.Receiving).
Proof.
  cbn [App.serve].
  rewrite (@no_audio_data_reply 1%nat audio_message_without_data env_ok
             server_connected eq_refl (or_introl eq_refl)).
  reflexivity.
Defined.

(* ================================================================== *)
(** * Further properties of main.py *)

(** ** validate_input and process_text *)

Lemma validate_input_blank U text max_length :
  blank U text -> validate_input U text max_length = (false, MSG_REPEAT).
Proof.
  unfold blank, validate_input.
  destruct text as [| b | n | s | l | d];
    cbn [isinstance_str negb]; rewrite ?orb_true_r; trivial.
  destruct s as [| a r]; [reflexivity |].
  cbn [truthy negb orb]. cbv zeta. intros ->. reflexivity.
Qed.

(** X1: an input that is not a string, is empty or holds only whitespace is
    answered by [process_text] with "I didn't catch that. Could you please
    repeat?", and the chat-completion service is not called. *)
Theorem process_text_rejects_blank (U : Runtime)
    (service : nat -> api_outcome) (shutdown_flag : nat -> bool)
    (max_retries : Z) (text : pyobj) (initial_delay : Q) :
  blank U text ->
  process_text U service shutdown_flag max_retries text initial_delay
  = {| result :=
         Returned (lit "I didn't catch that. Could you please repeat?");
       calls := 0; sleeps := [] |}.
Proof.
  intros H. unfold process_text.
  rewrite (@validate_input_blank U text validate_default_max_length H).
  reflexivity.
Qed.

Lemma process_text_rejects_blank_witness :
  blank latin1 (PyStr (lit "  "))
  /\ process_text latin1 (rate_limited 0 (Completion [lit "Hi"])) flag_clear 3
       (PyStr (lit "  ")) 1
     = {| result :=
            Returned (lit "I didn't catch that. Could you please repeat?");
          calls := 0; sleeps := [] |}.
Proof.
  split; [reflexivity |].
  exact (@process_text_rejects_blank latin1
           (rate_limited 0 (Completion [lit "Hi"])) flag_clear 3
           (PyStr (lit "  ")) 1 eq_refl).
Defined.

(** X2: what [validate_input] accepts is a string, and what it hands on is
    that string without the whitespace at its ends: not empty, at most
    [max_length] characters long, with no whitespace first or last. *)
Theorem validate_input_accepted (U : Runtime) (text : pyobj)
    (max_length : Z) (r : pystr) :
  validate_input U text max_length = (true, r) ->
  exists s, text = PyStr s
            /\ r = strip U s
            /\ r <> []
            /\ (Z.of_nat (length r) <= max_length)%Z
            /\ at_ends (fun c => isspace U c = false) r.
Proof.
  intros H.
  destruct (@validate_input_valid_is_str U text max_length) as (s & -> & E).
  { now rewrite H. }
  exists s. rewrite E in H. injection H as <-.
  split; [reflexivity |]. split; [reflexivity |].
  unfold validate_input in E. destruct s as [| a t]; [discriminate |].
  cbn [truthy isinstance_str negb orb] in E. cbv zeta in E.
  destruct (strip U (a :: t)) as [| b u] eqn:S; [discriminate |].
  cbn [truthy negb] in E.
  destruct (Z.ltb_spec max_length (Z.of_nat (length (b :: u))));
    [discriminate |].
  split; [discriminate |]. split; [assumption |].
  rewrite <- S. split.
  - destruct (hd_error (strip U (a :: t))) eqn:Hh;
      [exact (strip_head U _ Hh) | exact I].
  - destruct (hd_error (rev (strip U (a :: t)))) eqn:Hl;
      [exact (strip_last U _ Hl) | exact I].
Qed.

Lemma validate_input_accepted_witness :
  validate_input latin1 (PyStr (lit "  hello there ")) 1000
    = (true, lit "hello there")
  /\ exists s, PyStr (lit "  hello there ") = PyStr s
               /\ lit "hello there" = strip latin1 s
               /\ lit "hello there" <> []
               /\ (Z.of_nat (length (lit "hello there")) <= 1000)%Z
               /\ at_ends (fun c => isspace latin1 c = false)
                    (lit "hello there").
Proof.
  split; [reflexivity |].
  exact (@validate_input_accepted latin1 (PyStr (lit "  hello there ")) 1000
           (lit "hello there") eq_refl).
Defined.

Section RetryLoopBounds.

Variable U : Runtime.
Variable service : nat -> api_outcome.
Variable shutdown_flag : nat -> bool.
Variable max_retries : Z.

Local Abbreviation loop := (retry_loop U service shutdown_flag max_retries).

(** Calls and sleeps of the loop against the retries that are left. *)
Lemma retry_loop_bounds : forall fuel retry_count delay k slept,
  let r := loop fuel retry_count delay k slept in
  (Z.of_nat k <= Z.of_nat (calls r))%Z
  /\ (Z.of_nat (calls r) - Z.of_nat k <= Z.max 0 (max_retries - retry_count))%Z
  /\ (Z.of_nat (length slept) <= Z.of_nat (length (sleeps r)))%Z
  /\ (Z.of_nat (length (sleeps r)) - Z.of_nat (length slept)
      <= Z.max 0 (max_retries - retry_count - 1))%Z
  /\ (Z.of_nat (length (sleeps r)) - Z.of_nat (length slept)
      <= Z.of_nat (calls r) - Z.of_nat k)%Z.
Proof.
  induction fuel as [| fuel IH]; intros rc d k slept; cbv zeta;
    cbn [retry_loop].
  - destruct (_ && _); cbn [calls sleeps]; lia.
  - destruct (Z.ltb_spec rc max_retries); cbn [andb calls sleeps]; [| lia].
    destruct (negb (shutdown_flag k)); cbn [calls sleeps]; [| lia].
    pose proof (IH (rc + 1)%Z d (S k) slept) as Hsame.
    pose proof (IH (rc + 1)%Z (py_min (d * 2) MAX_DELAY) (S k) (slept ++ [d]))
      as Hslept.
    cbv zeta in Hsame, Hslept. rewrite length_app in Hslept.
    cbn [length] in Hslept.
    destruct (service k) as [[| c m] | | |]; cbn [calls sleeps];
      try lia;
      destruct (Z.geb_spec (rc + 1) max_retries); cbn [calls sleeps];
      try lia.
    destruct (sleep_ok U d); cbn [calls sleeps]; [lia |].
    rewrite length_app. cbn [length]. lia.
Qed.



(** Exceptions that are neither rate-limit nor API errors use up the retries
    without any sleep. *)
Lemma retry_loop_unexpected : forall fuel retry_count delay k slept,
  (forall j, shutdown_flag j = false) ->
  (retry_count < max_retries)%Z ->
  (max_retries - retry_count <= Z.of_nat fuel)%Z ->
  (forall j, (retry_count + Z.of_nat j < max_retries)%Z ->
             service (k + j)%nat = OtherError
             \/ service (k + j)%nat = Completion []) ->
  let r := loop fuel retry_count delay k slept in
  result r = Returned MSG_UNEXPECTED
  /\ (Z.of_nat (calls r) = Z.of_nat k + (max_retries - retry_count))%Z
  /\ sleeps r = slept.
Proof.
  induction fuel as [| fuel IH]; intros rc d k slept Hflag Hlt Hfuel Hsvc;
    [lia |]; simpl.
  rewrite Hflag. destruct (Z.ltb_spec rc max_retries); [| lia]. simpl.
  assert (Hn : forall j, (rc + 1 + Z.of_nat j < max_retries)%Z ->
                service (S k + j)%nat = OtherError
                \/ service (S k + j)%nat = Completion []).
  { intros j Hj. replace (S k + j)%nat with (k + S j)%nat by lia.
    apply Hsvc. lia. }
  assert (Hk : service k = OtherError \/ service k = Completion [])
    by (rewrite <- (Nat.add_0_r k); apply Hsvc; lia).
  destruct Hk as [-> | ->];
    (destruct (Z.geb_spec (rc + 1) max_retries); simpl;
     [repeat split; lia |]);
    (destruct (IH (rc + 1)%Z d (S k) slept) as (R1 & R2 & R3);
     trivial; try lia; rewrite R1, R2, R3; repeat split; lia).
Qed.

End RetryLoopBounds.

(** X3: whatever the service answers, one call of [process_text] makes at
    most max_retries calls to it (none when max_retries is not positive) and
    sleeps at most max_retries - 1 times, never more often than it has
    called. *)
Theorem process_text_call_bound (U : Runtime)
    (service : nat -> api_outcome) (shutdown_flag : nat -> bool)
    (max_retries : Z) (text : pyobj) (initial_delay : Q) :
  let r :=
    process_text U service shutdown_flag max_retries text initial_delay in
  (Z.of_nat (calls r) <= Z.max 0 max_retries)%Z
  /\ (Z.of_nat (length (sleeps r)) <= Z.max 0 (max_retries - 1))%Z
  /\ (length (sleeps r) <= calls r)%nat.
Proof.
  intros r. subst r. unfold process_text.
  destruct (validate_input U text validate_default_max_length) as [v m].
  destruct (negb v); simpl; [lia |].
  pose proof (@retry_loop_bounds U service shutdown_flag max_retries
                (Z.to_nat max_retries) 0%Z initial_delay 0%nat []) as H.
  cbv zeta in H. cbn [length] in H. lia.
Qed.





(** X6: exceptions that are neither rate-limit nor API errors (an empty list
    of choices is one) are retried at once, without backoff.  For a valid
    text, with the shutdown flag clear and max_retries at least 1: when each
    of the first max_retries calls ends in such an exception, [process_text]
    returns "I'm sorry, I encountered an error processing your request.
    Please try again later." after exactly max_retries calls and never
    sleeps. *)
Theorem process_text_unexpected_errors (U : Runtime)
    (service : nat -> api_outcome) (shutdown_flag : nat -> bool)
    (max_retries : Z) (text : pyobj) (initial_delay : Q) :
  fst (validate_input U text validate_default_max_length) = true ->
  (forall k, shutdown_flag k = false) ->
  (1 <= max_retries)%Z ->
  (forall k, (Z.of_nat k < max_retries)%Z ->
             service k = OtherError \/ service k = Completion []) ->
  let r :=
    process_text U service shutdown_flag max_retries text initial_delay in
  result r
    = Returned (lit "I'm sorry, I encountered an error processing your request. Please try again later.")
  /\ Z.of_nat (calls r) = max_retries
  /\ sleeps r = [].
Proof.
  intros Hv Hflag Hm Hsvc r. subst r. unfold process_text.
  destruct (@validate_input_valid_is_str U text validate_default_max_length Hv)
    as (s & -> & ->).
  cbn [negb].
  destruct (@retry_loop_unexpected U service shutdown_flag max_retries
              (Z.to_nat max_retries) 0%Z initial_delay 0%nat [])
    as (R1 & R2 & R3); trivial; try lia.
  repeat split; [exact R1 | | exact R3].
  rewrite R2. cbn [Z.of_nat]. lia.
Qed.

Lemma process_text_unexpected_errors_witness :
  let r := process_text latin1 (failing 3 (Completion [lit "late"]))
             flag_clear 3 (PyStr (lit "hello")) 1 in
  result r
    = Returned (lit "I'm sorry, I encountered an error processing your request. Please try again later.")
  /\ Z.of_nat (calls r) = 3%Z
  /\ sleeps r = [].
Proof.
  apply (@process_text_unexpected_errors latin1
           (failing 3 (Completion [lit "late"])) flag_clear 3
           (PyStr (lit "hello")) 1 eq_refl (fun _ => eq_refl)); [lia |].
  intros k Hk. left. unfold failing.
  destruct (Nat.ltb_spec k 3); [reflexivity | lia].
Defined.

(** ** sanitize_text *)

Lemma prefix_of_length p s : prefix_of p s -> (length p <= length s)%nat.
Proof. intros [t ->]. rewrite length_app. lia. Qed.

Lemma rsplit1_head_no_space s : has_space s = false -> rsplit1_head s = s.
Proof.
  destruct s as [| c r]; [reflexivity |]. intros H.
  unfold has_space in H. cbn [existsb] in H.
  apply orb_false_iff in H. destruct H as [Hc Hr].
  cbn [rsplit1_head]. unfold has_space. rewrite Hr, N.eqb_sym, Hc.
  reflexivity.
Qed.

(** [rsplit1_head] cuts at the last space. *)
Lemma rsplit1_head_last_space s :
  has_space s = true ->
  exists t, s = rsplit1_head s ++ SPACE :: t /\ has_space t = false.
Proof.
  induction s as [| c r IH]; [discriminate |].
  intros H. cbn [rsplit1_head]. destruct (has_space r) eqn:Hr.
  - destruct (IH eq_refl) as (t & E & Ht). exists t. split; [| exact Ht].
    cbn [app]. now rewrite <- E.
  - unfold has_space in H, Hr. cbn [existsb] in H.
    rewrite Hr, orb_false_r in H. rewrite N.eqb_sym, H.
    apply N.eqb_eq in H. subst c. exists r. now split.
Qed.

(** X7: for a limit that is not negative, the result of [sanitize_text] is
    never more than three characters longer than [max_length]: the limit and
    the ellipsis. *)
Theorem sanitize_text_length_bound (U : Runtime) (text : pyobj)
    (max_length : Z) :
  (0 <= max_length)%Z ->
  (Z.of_nat (length (sanitize_text U text max_length)) <= max_length + 3)%Z.
Proof.
  intros Hm. unfold sanitize_text.
  destruct (negb (truthy text) || negb (isinstance_str text));
    [simpl; lia |].
  destruct text as [| b | n | s | l | d]; try (simpl; lia).
  cbv zeta.
  destruct (Z.ltb_spec max_length
              (Z.of_nat (length (strip U (filter (keep U) s))))); [| lia].
  rewrite length_app.
  pose proof (prefix_of_length
                (prefix_of_rsplit1_head
                   (slice_to (strip U (filter (keep U) s)) max_length))) as Hp.
  unfold slice_to in Hp at 2. destruct (Z.leb_spec 0 max_length); [| lia].
  pose proof (firstn_le_length (Z.to_nat max_length)
                (strip U (filter (keep U) s))) as Hf.
  change (length (lit "...")) with 3%nat. lia.
Qed.

Lemma sanitize_text_length_bound_witness :
  (0 <= 500)%Z
  /\ (Z.of_nat (length (sanitize_text latin1 (PyStr long_text) 500))
      <= 500 + 3)%Z.
Proof.
  assert (H : (0 <= 500)%Z) by lia.
  split; [exact H |].
  exact (@sanitize_text_length_bound latin1 (PyStr long_text) 500 H).
Defined.

(** X8: what [sanitize_text] makes of a string, for a limit that is not
    negative.  Let the cleaned text be the string without its characters that
    are neither printable nor whitespace and without the whitespace at its
    ends.  If the cleaned text fits the limit it is the result.  Otherwise
    the result is a piece of the cleaned text followed by "...": the first
    [max_length] characters when they hold no space, and else what precedes
    the last space among them, so that no word is cut. *)
Theorem sanitize_text_truncation (U : Runtime) (s : pystr)
    (max_length : Z) :
  (0 <= max_length)%Z ->
  let cleaned := strip U (filter (keep U) s) in
  let head := firstn (Z.to_nat max_length) cleaned in
  if (Z.of_nat (length cleaned) <=? max_length)%Z
  then sanitize_text U (PyStr s) max_length = cleaned
  else exists p,
      sanitize_text U (PyStr s) max_length = p ++ lit "..."
      /\ (has_space head = false /\ p = head
          \/ exists t, head = p ++ SPACE :: t /\ has_space t = false).
Proof.
  intros Hm cleaned head.
  assert (Hs : sanitize_text U (PyStr s) max_length
               = if (max_length <? Z.of_nat (length cleaned))%Z
                 then rsplit1_head head ++ lit "..." else cleaned).
  { unfold sanitize_text. destruct s as [| a r].
    - simpl. destruct (max_length <? 0)%Z eqn:E; [| reflexivity].
      apply Z.ltb_lt in E. lia.
    - cbn [truthy isinstance_str negb orb]. cbv zeta. fold cleaned.
      unfold slice_to. destruct (Z.leb_spec 0 max_length); [| lia].
      reflexivity. }
  rewrite Hs.
  destruct (Z.leb_spec (Z.of_nat (length cleaned)) max_length);
    destruct (Z.ltb_spec max_length (Z.of_nat (length cleaned))); try lia.
  - reflexivity.
  - exists (rsplit1_head head). split; [reflexivity |].
    destruct (has_space head) eqn:E.
    + right. now apply rsplit1_head_last_space.
    + left. split; [reflexivity | now apply rsplit1_head_no_space].
Qed.

Lemma sanitize_text_truncation_witness :
  (0 <= 12)%Z
  /\ exists p,
       sanitize_text latin1 (PyStr (lit " take a deep breath ")) 12
         = p ++ lit "..."
       /\ (has_space (lit "take a deep ") = false /\ p = lit "take a deep "
           \/ exists t, lit "take a deep " = p ++ SPACE :: t
                        /\ has_space t = false).
Proof.
  assert (H : (0 <= 12)%Z) by lia.
  split; [exact H |].
  exact (@sanitize_text_truncation latin1 (lit " take a deep breath ") 12 H).
Defined.

(** ** speak_text and the temporary file *)

Lemma pystr_eqb_eq a : forall b, pystr_eqb a b = true <-> a = b.
Proof.
  induction a as [| x a IH]; intros [| y b]; simpl; split; intros H;
    try discriminate; try reflexivity.
  - apply andb_true_iff in H. destruct H as [Hx Hr].
    apply N.eqb_eq in Hx. apply IH in Hr. now subst.
  - injection H as -> ->. rewrite N.eqb_refl. now apply IH.
Qed.

Lemma pystr_eqb_neq a b : a <> b -> pystr_eqb a b = false.
Proof.
  intros H. destruct (pystr_eqb a b) eqn:E; [| reflexivity].
  apply pystr_eqb_eq in E. contradiction.
Qed.

Lemma path_exists_create_other fs p q :
  q <> p -> path_exists (create_file fs p) q = path_exists fs q.
Proof.
  intros H. unfold create_file. destruct (path_exists fs p); [reflexivity |].
  simpl. now rewrite (pystr_eqb_neq H).
Qed.

Lemma path_exists_remove_other fs p q :
  q <> p -> path_exists (remove_file fs p) q = path_exists fs q.
Proof.
  intros H. unfold path_exists, remove_file.
  induction fs as [| x r IH]; simpl; [reflexivity |].
  destruct (pystr_eqb p x) eqn:E; simpl.
  - apply pystr_eqb_eq in E. subst x. rewrite (pystr_eqb_neq H). exact IH.
  - now rewrite IH.
Qed.


(** X10: [speak_text] touches no file but its own temporary file: every
    other path exists after the call exactly when it existed before. *)
Theorem speak_text_keeps_other_files (U : Runtime) (e : speak_env)
    (fs : filesystem) (text : pyobj) (rate volume : Q) (q : pystr) :
  q <> mktemp e ->
  path_exists (files (speak_text U e fs text rate volume)) q
  = path_exists fs q.
Proof.
  intros Hq. unfold speak_text.
  destruct (negb (truthy (PyStr (sanitize_text U text _)))); [reflexivity |].
  assert (Hfin : forall fs',
    path_exists fs' q = path_exists fs q ->
    path_exists
      (if truthy (PyStr (mktemp e)) && path_exists fs' (mktemp e)
       then if unlink_ok e then remove_file fs' (mktemp e) else fs'
       else fs') q = path_exists fs q).
  { intros fs' H. destruct (_ && _); [| exact H].
    destruct (unlink_ok e); [| exact H].
    now rewrite path_exists_remove_other. }
  assert (Hc : path_exists (create_file fs (mktemp e)) q = path_exists fs q)
    by now apply path_exists_create_other.
  destruct (tts_save e) as [size | created]; cbv zeta.
  - destruct (negb (path_exists _ _) || _); [now apply Hfin |].
    destruct (negb (sf_read e)); [now apply Hfin |].
    destruct (sd_play e); [now apply Hfin |].
    destruct (system_player e); now apply Hfin.
  - cbn iota. apply Hfin. now destruct created.
Qed.

Lemma speak_text_keeps_other_files_witness :
  lit "/home/me/notes.txt" <> mktemp speak_ok
  /\ path_exists
       (files (speak_text latin1 speak_ok [lit "/home/me/notes.txt"]
                 (PyStr (lit "Hello")) 1 1))
       (lit "/home/me/notes.txt")
     = path_exists [lit "/home/me/notes.txt"] (lit "/home/me/notes.txt").
Proof.
  assert (H : lit "/home/me/notes.txt" <> mktemp speak_ok)
    by (vm_compute; discriminate).
  split; [exact H |].
  exact (@speak_text_keeps_other_files latin1 speak_ok
           [lit "/home/me/notes.txt"] (PyStr (lit "Hello")) 1 1
           (lit "/home/me/notes.txt") H).
Defined.

(** X11: when [tempfile.mktemp] gives a fresh name and [os.unlink] does not
    fail, the temporary file of [speak_text] does not exist when the call
    returns, on every path: synthesis failed, empty file, unreadable audio,
    playback by either player, or both players failed. *)
Theorem speak_text_temp_file_removed (U : Runtime) (e : speak_env)
    (fs : filesystem) (text : pyobj) (rate volume : Q) :
  mktemp e <> [] ->
  path_exists fs (mktemp e) = false ->
  unlink_ok e = true ->
  path_exists (files (speak_text U e fs text rate volume)) (mktemp e) = false.
Proof. apply speak_text_removes_temp_file. Qed.

Lemma speak_text_temp_file_removed_witness :
  mktemp speak_ok <> []
  /\ path_exists [] (mktemp speak_ok) = false
  /\ unlink_ok speak_ok = true
  /\ path_exists
       (files (speak_text latin1 speak_ok [] (PyStr (lit "Hello")) 1 1))
       (mktemp speak_ok) = false.
Proof.
  assert (H : mktemp speak_ok <> []) by (vm_compute; discriminate).
  split; [exact H |]. split; [reflexivity |]. split; [reflexivity |].
  exact (@speak_text_temp_file_removed latin1 speak_ok []
           (PyStr (lit "Hello")) 1 1 H eq_refl eq_refl).
Defined.

(** X12: [cleanup_temp_file] with a path that is not empty and an
    [os.unlink] that does not fail leaves no file at that path, and every
    other path as it was; when [os.unlink] fails nothing changes. *)
Theorem cleanup_temp_file_removes (file_path : pystr) (fs : filesystem)
    (q : pystr) :
  file_path <> [] ->
  path_exists (cleanup_temp_file true file_path fs) file_path = false
  /\ (q <> file_path ->
      path_exists (cleanup_temp_file true file_path fs) q = path_exists fs q)
  /\ cleanup_temp_file false file_path fs = fs.
Proof.
  intros Hp. unfold cleanup_temp_file.
  destruct file_path as [| c r]; [contradiction |]. cbn [truthy andb].
  destruct (path_exists fs (c :: r)) eqn:E; repeat split; trivial.
  - apply path_exists_remove.
  - intros Hq. now apply path_exists_remove_other.
Qed.

Lemma cleanup_temp_file_removes_witness :
  lit "/tmp/a.mp3" <> []
  /\ path_exists
       (cleanup_temp_file true (lit "/tmp/a.mp3")
          [lit "/tmp/b.mp3"; lit "/tmp/a.mp3"]) (lit "/tmp/a.mp3") = false.
Proof.
  assert (H : lit "/tmp/a.mp3" <> []) by (vm_compute; discriminate).
  split; [exact H |].
  exact (proj1 (@cleanup_temp_file_removes (lit "/tmp/a.mp3")
                  [lit "/tmp/b.mp3"; lit "/tmp/a.mp3"] (lit "/tmp/b.mp3") H)).
Defined.

(** ** The conversation loop *)

Lemma starts_with_app w b : starts_with w (w ++ b) = true.
Proof.
  induction w as [| c w IH]; simpl; [reflexivity |].
  now rewrite N.eqb_refl, IH.
Qed.

Lemma contains_app w a b : contains w (a ++ w ++ b) = true.
Proof.
  induction a as [| c a IH].
  - simpl app. destruct (w ++ b) eqn:E; simpl;
      rewrite <- E, starts_with_app; reflexivity.
  - cbn [app contains]. rewrite IH. apply orb_true_r.
Qed.

(** X13: the exit test looks for the exit words anywhere in the text and in
    any case.  A text of ASCII characters that holds "exit", "quit", "bye"
    or "goodbye" in upper or lower case, be it inside a longer word, makes
    [wants_exit] true. *)
Theorem wants_exit_substring (U : Runtime) (before word after : pystr) :
  In (map ascii_lower word) EXIT_WORDS ->
  forallb is_ascii (before ++ word ++ after) = true ->
  wants_exit U (before ++ word ++ after) = true.
Proof.
  intros Hw Ha. unfold wants_exit, lower. rewrite Ha.
  apply existsb_exists. exists (map ascii_lower word). split; [exact Hw |].
  rewrite !map_app. apply contains_app.
Qed.

Lemma wants_exit_substring_witness :
  In (map ascii_lower (lit "BYE")) EXIT_WORDS
  /\ forallb is_ascii (lit "Stand" ++ lit "BYE" ++ lit " for a moment") = true
  /\ wants_exit latin1 (lit "Stand" ++ lit "BYE" ++ lit " for a moment") = true.
Proof.
  assert (H : In (map ascii_lower (lit "BYE")) EXIT_WORDS)
    by (right; right; left; reflexivity).
  split; [exact H |]. split; [reflexivity |].
  exact (@wants_exit_substring latin1 (lit "Stand") (lit "BYE")
           (lit " for a moment") H eq_refl).
Defined.

Lemma main_loop_failing_turn U t rest c :
  failing_turn t ->
  main_loop U (t :: rest)
    {| conversation_active := true; consecutive_errors := c |}
  = if (c + 1 >? MAX_CONSECUTIVE_ERRORS * 2)%Z
    then [Listen; Speak SAY_ERROR; Speak SAY_TOO_MANY]
    else [Listen; Speak SAY_ERROR; Sleep 1]
           ++ main_loop U rest
                {| conversation_active := true; consecutive_errors := c + 1 |}.
Proof.
  intros [Hf Hl]. cbn [main_loop conversation_active]. rewrite Hf.
  cbn [andb negb]. unfold loop_body. rewrite Hl.
  cbn [conversation_active consecutive_errors].
  destruct (_ >? _)%Z; reflexivity.
Qed.

Lemma main_loop_failing_below U t rest c :
  failing_turn t -> (c + 1 <= 6)%Z ->
  main_loop U (t :: rest)
    {| conversation_active := true; consecutive_errors := c |}
  = [Listen; Speak SAY_ERROR; Sleep 1]
      ++ main_loop U rest
           {| conversation_active := true; consecutive_errors := c + 1 |}.
Proof.
  intros Ht Hc. rewrite main_loop_failing_turn by exact Ht.
  unfold MAX_CONSECUTIVE_ERRORS.
  destruct (Z.gtb_spec (c + 1) (3 * 2)); [lia | reflexivity].
Qed.

Lemma main_loop_failing_limit U t rest c :
  failing_turn t -> (6 < c + 1)%Z ->
  main_loop U (t :: rest)
    {| conversation_active := true; consecutive_errors := c |}
  = [Listen; Speak SAY_ERROR; Speak SAY_TOO_MANY].
Proof.
  intros Ht Hc. rewrite main_loop_failing_turn by exact Ht.
  unfold MAX_CONSECUTIVE_ERRORS.
  destruct (Z.gtb_spec (c + 1) (3 * 2)); [reflexivity | lia].
Qed.

Lemma main_loop_silent_turn U t rest c :
  silent_turn t ->
  main_loop U (t :: rest)
    {| conversation_active := true; consecutive_errors := c |}
  = if (c + 1 >=? MAX_CONSECUTIVE_ERRORS)%Z
    then [Listen; Speak SAY_REPEAT; Speak SAY_CHECK_MIC]
           ++ main_loop U rest
                {| conversation_active := true; consecutive_errors := 0 |}
    else [Listen; Speak SAY_REPEAT]
           ++ main_loop U rest
                {| conversation_active := true; consecutive_errors := c + 1 |}.
Proof.
  intros (Hf & Hs & x & Hl & Hx). cbn [main_loop conversation_active].
  rewrite Hf. cbn [andb negb].
  unfold loop_body. rewrite Hl, Hs, Hx.
  cbn [conversation_active consecutive_errors].
  destruct (_ >=? _)%Z; reflexivity.
Qed.

Lemma main_loop_silent_below U t rest c :
  silent_turn t -> (c + 1 < 3)%Z ->
  main_loop U (t :: rest)
    {| conversation_active := true; consecutive_errors := c |}
  = [Listen; Speak SAY_REPEAT]
      ++ main_loop U rest
           {| conversation_active := true; consecutive_errors := c + 1 |}.
Proof.
  intros Ht Hc. rewrite main_loop_silent_turn by exact Ht.
  unfold MAX_CONSECUTIVE_ERRORS.
  destruct (Z.geb_spec (c + 1) 3); [lia | reflexivity].
Qed.

Lemma main_loop_silent_limit U t rest c :
  silent_turn t -> (3 <= c + 1)%Z ->
  main_loop U (t :: rest)
    {| conversation_active := true; consecutive_errors := c |}
  = [Listen; Speak SAY_REPEAT; Speak SAY_CHECK_MIC]
      ++ main_loop U rest
           {| conversation_active := true; consecutive_errors := 0 |}.
Proof.
  intros Ht Hc. rewrite main_loop_silent_turn by exact Ht.
  unfold MAX_CONSECUTIVE_ERRORS.
  destruct (Z.geb_spec (c + 1) 3); [reflexivity | lia].
Qed.

(** X14: seven turns in a row in which listening ends in an exception shut
    the assistant down.  From the start of the loop, the first six are
    answered with "I encountered an error. Let's try that again." and a
    sleep of one second; the seventh is answered with that and "I'm having
    too many issues. Please restart me.", and the loop ends whatever turns
    would follow. *)
Theorem seven_errors_end_loop (U : Runtime) (ts rest : list turn) :
  length ts = 7%nat ->
  Forall failing_turn ts ->
  main_loop U (ts ++ rest) initial_loop_state
  = concat (repeat [Listen; Speak SAY_ERROR; Sleep 1] 6)
      ++ [Listen; Speak SAY_ERROR; Speak SAY_TOO_MANY].
Proof.
  intros Hlen Hall.
  do 7 (destruct ts as [| ?t ts]; [discriminate |]).
  destruct ts; [| discriminate].
  repeat match goal with
         | H : Forall _ (_ :: _) |- _ => inversion H; subst; clear H
         end.
  cbn [app]. unfold initial_loop_state.
  do 6 (rewrite main_loop_failing_below by (assumption || lia)).
  rewrite main_loop_failing_limit by (assumption || lia).
  reflexivity.
Qed.

Lemma seven_errors_end_loop_witness :
  main_loop latin1 (repeat turn_failing 7 ++ [turn_hearing (lit "hello") false])
    initial_loop_state
  = concat (repeat [Listen; Speak SAY_ERROR; Sleep 1] 6)
      ++ [Listen; Speak SAY_ERROR; Speak SAY_TOO_MANY].
Proof.
  apply (@seven_errors_end_loop latin1 (repeat turn_failing 7)
           [turn_hearing (lit "hello") false] eq_refl).
  repeat constructor.
Defined.

(** X15: three turns in a row in which nothing is recognized bring the
    microphone warning and start the count afresh.  From a loop state with no
    errors counted, each of the three is answered with "I didn't catch that.
    Could you please repeat?", the third also with "I'm having trouble
    understanding you. Please check your microphone and try again.", and the
    loop goes on from a state with no errors counted. *)
Theorem three_silent_turns_warn (U : Runtime) (t1 t2 t3 : turn)
    (rest : list turn) :
  silent_turn t1 -> silent_turn t2 -> silent_turn t3 ->
  main_loop U (t1 :: t2 :: t3 :: rest) initial_loop_state
  = [Listen; Speak SAY_REPEAT;
     Listen; Speak SAY_REPEAT;
     Listen; Speak SAY_REPEAT; Speak SAY_CHECK_MIC]
      ++ main_loop U rest initial_loop_state.
Proof.
  intros H1 H2 H3. unfold initial_loop_state.
  rewrite main_loop_silent_below by (assumption || lia).
  rewrite main_loop_silent_below by (assumption || lia).
  rewrite main_loop_silent_limit by (assumption || lia).
  reflexivity.
Qed.

Lemma three_silent_turns_warn_witness :
  main_loop latin1 [turn_silent; turn_silent; turn_silent] initial_loop_state
  = [Listen; Speak SAY_REPEAT;
     Listen; Speak SAY_REPEAT;
     Listen; Speak SAY_REPEAT; Speak SAY_CHECK_MIC]
      ++ main_loop latin1 [] initial_loop_state.
Proof.
  assert (H : silent_turn turn_silent).
  { split; [reflexivity |]. split; [reflexivity |].
    exists PyNone. split; reflexivity. }
  exact (@three_silent_turns_warn latin1 turn_silent turn_silent turn_silent
           [] H H H).
Defined.

Lemma process_text_calls_le U service shutdown_flag max_retries text d :
  (Z.of_nat (calls (process_text U service shutdown_flag max_retries text d))
   <= Z.max 0 max_retries)%Z.
Proof.
  unfold process_text.
  destruct (validate_input U text validate_default_max_length) as [v m].
  destruct (negb v); cbn [calls]; [lia |].
  pose proof (@retry_loop_bounds U service shutdown_flag max_retries
                (Z.to_nat max_retries) 0%Z d 0%nat []) as H.
  cbv zeta in H. lia.
Qed.

Lemma no_listen_in_sleeps l : existsb is_listen (map Sleep l) = false.
Proof. induction l; simpl; auto. Qed.

Lemma no_chat_in_sleeps n l : ~ In (Chat n) (map Sleep l).
Proof. induction l; simpl; [tauto |]. intros [H | H]; [discriminate | auto]. Qed.

(** X16: every pass through the loop listens exactly once, first of all, and
    unless the shutdown flag is found set after listening or after the reply
    was made, it says something before it ends: no turn and no error goes by
    in silence. *)
Theorem loop_body_listens_and_speaks (U : Runtime) (t : turn)
    (st : loop_state) :
  exists tail,
    fst (fst (loop_body U t st)) = Listen :: tail
    /\ existsb is_listen tail = false
    /\ (flag_after_listen t = false -> flag_after_process t = false ->
        existsb is_speak tail = true).
Proof.
  unfold loop_body.
  destruct (listened t) as [user_input | |].
  - destruct (flag_after_listen t) eqn:Hfl.
    { exists []. repeat split. discriminate. }
    destruct (truthy user_input).
    + destruct user_input as [| b | n | s | l | d];
        try (destruct (_ >? _)%Z; eexists; repeat split; reflexivity).
      destruct (wants_exit U s); [eexists; repeat split; reflexivity |].
      cbv zeta.
      set (run := process_text U (chat_service t) (flag_in_retry t)
                    default_max_retries (PyStr s) default_initial_delay).
      destruct (result run) as [response | what |].
      * destruct (flag_after_process t) eqn:Hfp.
        -- exists (Chat (calls run) :: map Sleep (sleeps run)).
           split; [reflexivity |]. split; [| discriminate].
           cbn [existsb is_listen orb]. apply no_listen_in_sleeps.
        -- exists (Chat (calls run) :: map Sleep (sleeps run)
                     ++ [Speak (if truthy (PyStr response)
                                then response else SAY_NO_RESPONSE)]).
           split; [reflexivity |].
           cbn [existsb is_listen is_speak orb]. rewrite !existsb_app.
           cbn [existsb is_listen is_speak].
           rewrite no_listen_in_sleeps. split; [reflexivity |].
           intros _ _. now rewrite !orb_true_r.
      * destruct (_ >? _)%Z;
          [exists (Chat (calls run) :: map Sleep (sleeps run)
                     ++ [Speak SAY_ERROR; Speak SAY_TOO_MANY])
          |exists (Chat (calls run) :: map Sleep (sleeps run)
                     ++ [Speak SAY_ERROR; Sleep 1])];
          (split; [reflexivity |]);
          cbn [existsb is_listen is_speak orb]; rewrite !existsb_app;
          cbn [existsb is_listen is_speak];
          rewrite ?no_listen_in_sleeps; (split; [reflexivity |]);
          intros _ _; now rewrite ?orb_true_r.
      * destruct (_ >? _)%Z;
          [exists (Chat (calls run) :: map Sleep (sleeps run)
                     ++ [Speak SAY_ERROR; Speak SAY_TOO_MANY])
          |exists (Chat (calls run) :: map Sleep (sleeps run)
                     ++ [Speak SAY_ERROR; Sleep 1])];
          (split; [reflexivity |]);
          cbn [existsb is_listen is_speak orb]; rewrite !existsb_app;
          cbn [existsb is_listen is_speak];
          rewrite ?no_listen_in_sleeps; (split; [reflexivity |]);
          intros _ _; now rewrite ?orb_true_r.
    + destruct (_ >=? _)%Z; eexists; repeat split; reflexivity.
  - eexists; repeat split; reflexivity.
  - destruct (_ >? _)%Z; eexists; repeat split; reflexivity.
Qed.

(** X17: the chat-completion service is called only for a request: when a
    pass through the loop calls [process_text], the recognized text is a
    string that is not empty and holds no exit word, and the shutdown flag
    was clear when listening returned; and that pass makes at most three
    calls to the service. *)
Theorem chat_only_for_requests (U : Runtime) (t : turn)
    (st : loop_state) (n : nat) :
  In (Chat n) (fst (fst (loop_body U t st))) ->
  (exists s, listened t = Heard (PyStr s)
             /\ s <> []
             /\ wants_exit U s = false)
  /\ flag_after_listen t = false
  /\ (n <= 3)%nat.
Proof.
  unfold loop_body.
  destruct (listened t) as [user_input | |].
  - destruct (flag_after_listen t) eqn:Hfl.
    { simpl. intros [H | []]; discriminate. }
    destruct (truthy user_input) eqn:Htr.
    + destruct user_input as [| b | n' | s | l | d];
        try (destruct (_ >? _)%Z; simpl;
             intros H; repeat destruct H as [H | H]; discriminate || tauto).
      destruct (wants_exit U s) eqn:Hw.
      { simpl. intros H; repeat destruct H as [H | H]; discriminate || tauto. }
      cbv zeta.
      set (run := process_text U (chat_service t) (flag_in_retry t)
                    default_max_retries (PyStr s) default_initial_delay).
      assert (Hcalls : (calls run <= 3)%nat).
      { pose proof (process_text_calls_le U (chat_service t) (flag_in_retry t)
                      default_max_retries (PyStr s) default_initial_delay) as B.
        fold run in B. unfold default_max_retries in B. lia. }
      assert (Hin : forall more,
                In (Chat n) (([Listen; Chat (calls run)]
                                ++ map Sleep (sleeps run)) ++ more) ->
                (forall x, In x more -> x <> Chat n) -> n = calls run).
      { intros more H Hmore. apply in_app_or in H. destruct H as [H | H].
        - apply in_app_or in H. destruct H as [H | H].
          + simpl in H. destruct H as [H | [H | []]]; [discriminate |].
            now injection H.
          + now apply no_chat_in_sleeps in H.
        - exfalso. exact (Hmore _ H eq_refl). }
      assert (Hgoal : n = calls run ->
                (exists s0, Heard (PyStr s) = Heard (PyStr s0)
                            /\ s0 <> [] /\ wants_exit U s0 = false)
                /\ false = false /\ (n <= 3)%nat).
      { intros ->. split; [| split; [reflexivity | exact Hcalls]].
        exists s. repeat split; [| exact Hw].
        intros ->. discriminate Htr. }
      destruct (result run) as [response | what |].
      * destruct (flag_after_process t).
        -- cbn [fst]. intros H. apply Hgoal, (Hin []).
           ++ now rewrite app_nil_r.
           ++ intros x [].
        -- cbn [fst]. intros H. apply Hgoal, (Hin _ H).
           intros x [<- | []]. discriminate.
      * destruct (_ >? _)%Z; cbn [fst]; intros H; apply Hgoal, (Hin _ H);
          intros x Hx; simpl in Hx;
          repeat destruct Hx as [Hx | Hx]; subst; discriminate || tauto.
      * destruct (_ >? _)%Z; cbn [fst]; intros H; apply Hgoal, (Hin _ H);
          intros x Hx; simpl in Hx;
          repeat destruct Hx as [Hx | Hx]; subst; discriminate || tauto.
    + destruct (_ >=? _)%Z; simpl;
        intros H; repeat destruct H as [H | H]; discriminate || tauto.
  - simpl. intros H; repeat destruct H as [H | H]; discriminate || tauto.
  - destruct (_ >? _)%Z; simpl;
      intros H; repeat destruct H as [H | H]; discriminate || tauto.
Qed.

Lemma chat_only_for_requests_witness :
  (exists s, listened (turn_hearing (lit "hello") false) = Heard (PyStr s)
             /\ s <> []
             /\ wants_exit latin1 s = false)
  /\ flag_after_listen (turn_hearing (lit "hello") false) = false
  /\ (1 <= 3)%nat.
Proof.
  apply (@chat_only_for_requests latin1 (turn_hearing (lit "hello") false)
           initial_loop_state 1%nat).
  right. left. reflexivity.
Defined.

(** ** listen_to_speech *)

Lemma py_min_pos a b : (0 < a)%Q -> (0 < b)%Q -> (0 < py_min a b)%Q.
Proof. intros Ha Hb. unfold py_min. now destruct (Qle_bool a b). Qed.

Lemma py_min_le_r a b : (py_min a b <= b)%Q.
Proof.
  unfold py_min. destruct (Qle_bool a b) eqn:E.
  - now apply Qle_bool_iff.
  - apply Qle_refl.
Qed.

Lemma py_min_le_l a b : (py_min a b <= a)%Q.
Proof.
  unfold py_min. destruct (Qle_bool a b) eqn:E; [apply Qle_refl |].
  destruct (Qlt_le_dec b a) as [H | H]; [now apply Qlt_le_weak |].
  apply Qle_bool_iff in H. congruence.
Qed.

Lemma sleep_ok_pos U bound q :
  sleeps_up_to U bound -> (0 < q)%Q -> (q <= bound)%Q -> sleep_ok U q = true.
Proof. intros Hup H Hb. apply Hup; [now apply Qlt_le_weak | exact Hb]. Qed.

Lemma opens_app a b : opens (a ++ b) = (opens a + opens b)%nat.
Proof. unfold opens. now rewrite filter_app, length_app. Qed.

Lemma small_below_float_limit : (15 < inject_Z FLOAT_LIMIT)%Q.
Proof. vm_compute. reflexivity. Qed.

Lemma float_overflows_below q :
  (q < inject_Z FLOAT_LIMIT)%Q ->
  float_overflows q = false /\ half_overflows q = false.
Proof.
  intros H. unfold float_overflows, half_overflows. split.
  - destruct (Qle_bool _ q) eqn:E; [| reflexivity].
    apply Qle_bool_iff in E. lra.
  - destruct (Qle_bool _ q) eqn:E; [| reflexivity].
    apply Qle_bool_iff in E.
    assert (Hd : (inject_Z FLOAT_LIMIT <= inject_Z (2 * FLOAT_LIMIT))%Q).
    { rewrite <- Zle_Qle. vm_compute. discriminate. }
    lra.
Qed.

Section ListenFacts.

Variable U : Runtime.
Variable world : nat -> attempt.
Variable max_attempts : Z.

Local Abbreviation lloop := (listen_loop U world max_attempts).

(** The next timeouts are positive when the timeout is. *)
Lemma timeout_next_pos t cap : (0 < t)%Q -> (0 < cap)%Q ->
  (0 < py_min (t * (3 # 2)) cap)%Q.
Proof. intros Ht Hc. apply py_min_pos; [| exact Hc]. lra. Qed.

(** And they are small. *)
Lemma timeout_next_small t cap : (cap <= 15)%Q ->
  (py_min (t * (3 # 2)) cap < inject_Z FLOAT_LIMIT)%Q.
Proof.
  intros Hc. apply Qle_lt_trans with (y := 15%Q);
    [| apply small_below_float_limit].
  apply Qle_trans with (y := cap); [apply py_min_le_r | exact Hc].
Qed.

Ltac listen_step :=
  cbn [listen_loop]; cbv zeta; unfold get_audio_input;
  repeat match goal with
         | |- context [if ?b then _ else _] =>
             lazymatch b with
             | context [listen_loop] => fail
             | _ => destruct b eqn:?
             end
         | |- context [match microphone ?w with _ => _ end] =>
             destruct (microphone w) eqn:?
         | |- context [match recognized ?w with _ => _ end] =>
             destruct (recognized w) eqn:?
         end.

Lemma listen_loop_answer : forall fuel attempts timeout log,
  sleeps_up_to U 5 ->
  (0 < timeout)%Q ->
  (timeout < inject_Z FLOAT_LIMIT)%Q ->
  (max_attempts - Z.of_nat attempts <= Z.of_nat fuel)%Z ->
  answer_ok U (answer (lloop fuel attempts timeout log)).
Proof.
  induction fuel as [| fuel IH]; intros attempts timeout log Hup Ht Hlim Hf.
  - cbn [listen_loop]. cbv zeta.
    destruct (Z.ltb_spec (Z.of_nat attempts) max_attempts); [lia |].
    exact I.
  - assert (Hw : sleep_ok U (py_min timeout 5) = true).
    { apply sleep_ok_pos with (bound := 5%Q);
        [exact Hup | apply py_min_pos; [exact Ht | reflexivity]
        | apply py_min_le_r]. }
    destruct (@float_overflows_below timeout Hlim) as [Hfo Hho].
    assert (H10 : (0 < py_min (timeout * (3 # 2)) 10)%Q)
      by (apply timeout_next_pos; [exact Ht | reflexivity]).
    assert (H15 : (0 < py_min (timeout * (3 # 2)) 15)%Q)
      by (apply timeout_next_pos; [exact Ht | reflexivity]).
    assert (L10 : (py_min (timeout * (3 # 2)) 10 < inject_Z FLOAT_LIMIT)%Q)
      by (apply timeout_next_small; discriminate).
    assert (L15 : (py_min (timeout * (3 # 2)) 15 < inject_Z FLOAT_LIMIT)%Q)
      by (apply timeout_next_small; discriminate).
    assert (Hn : (max_attempts - Z.of_nat (S attempts) <= Z.of_nat fuel)%Z)
      by lia.
    listen_step; cbn [answer]; try exact I; try congruence;
      try (apply IH; assumption).
    all: cbn [answer_ok]; split;
      [intros E;
       match goal with
       | H : _ && _ = true |- _ =>
           apply andb_true_iff in H; destruct H as [_ H];
           rewrite E in H; discriminate H
       end
      | split;
        [destruct (hd_error (strip U text)) eqn:Hh;
           [exact (strip_head U _ Hh) | exact I]
        | destruct (hd_error (rev (strip U text))) eqn:Hl;
           [exact (strip_last U _ Hl) | exact I]]].
Qed.

Lemma listen_loop_opens : forall fuel attempts timeout log,
  (Z.of_nat (opens (mic_log (lloop fuel attempts timeout log)))
   <= Z.of_nat (opens log) + Z.max 0 (max_attempts - Z.of_nat attempts))%Z.
Proof.
  induction fuel as [| fuel IH]; intros attempts timeout log.
  - cbn [listen_loop]. cbv zeta. destruct (_ && _); cbn [mic_log]; lia.
  - listen_step; cbn [mic_log];
      repeat match goal with
             | H : (_ <? _)%Z = true |- _ => apply Z.ltb_lt in H
             | H : (_ <? _)%Z = false |- _ => apply Z.ltb_ge in H
             | H : _ && _ = true |- _ =>
                 apply andb_true_iff in H; destruct H
             end;
      try lia;
      try (match goal with
           | |- context [lloop fuel ?a ?t ?l] =>
               pose proof (IH a t l) as IH'
           end;
           rewrite ?opens_app in *; cbn [opens filter is_open length] in *;
           lia);
      rewrite ?opens_app; cbn [opens filter is_open length]; lia.
Qed.

Lemma listen_loop_timing : forall fuel attempts timeout log,
  (0 < timeout)%Q -> (timeout <= 15)%Q ->
  Forall timing_ok log ->
  Forall timing_ok (mic_log (lloop fuel attempts timeout log)).
Proof.
  induction fuel as [| fuel IH]; intros attempts timeout log Ht Hb Hlog.
  - cbn [listen_loop]. cbv zeta. destruct (_ && _); exact Hlog.
  - assert (Hlim : (timeout < inject_Z FLOAT_LIMIT)%Q)
      by (apply Qle_lt_trans with (y := 15%Q);
          [exact Hb | apply small_below_float_limit]).
    destruct (@float_overflows_below timeout Hlim) as [Hfo Hho].
    assert (H10 : (0 < py_min (timeout * (3 # 2)) 10)%Q)
      by (apply timeout_next_pos; [exact Ht | reflexivity]).
    assert (H15 : (0 < py_min (timeout * (3 # 2)) 15)%Q)
      by (apply timeout_next_pos; [exact Ht | reflexivity]).
    assert (B10 : (py_min (timeout * (3 # 2)) 10 <= 15)%Q).
    { apply Qle_trans with (y := 10%Q); [apply py_min_le_r | discriminate]. }
    assert (B15 : (py_min (timeout * (3 # 2)) 15 <= 15)%Q)
      by apply py_min_le_r.
    assert (Hwait : timing_ok (Wait (py_min timeout 5))).
    { split; [apply py_min_pos; [exact Ht | reflexivity]
             | apply py_min_le_r]. }
    assert (Hcal : timing_ok (Calibrate (py_min 1 (timeout / 2)))).
    { split; [| apply py_min_le_l].
      apply py_min_pos; [reflexivity |].
      apply Qlt_shift_div_l; [reflexivity | lra]. }
    assert (Hcap : timing_ok (Capture timeout (py_min 5 15))).
    { split; [exact Ht |]. split; [exact Hb | reflexivity]. }
    assert (Hopen : timing_ok (OpenMicrophone (timeout + 2))) by exact I.
    assert (Hsay : timing_ok (Say SAY_TRY_AGAIN)) by exact I.
    assert (Hrec : timing_ok Recognize) by exact I.
    listen_step; cbn [mic_log]; try congruence;
      try (apply IH; try assumption);
      repeat (apply Forall_app; split);
      repeat (apply Forall_cons || apply Forall_nil); assumption.
Qed.

End ListenFacts.

(** X18: for every [max_attempts], and an initial timeout that is left to
    its default or is an int that can become a float (below 2^1024 - 2^970),
    on a platform whose [time.sleep] accepts every duration up to 5 seconds:
    [listen_to_speech] always returns, either None or a recognized text, and
    a text it returns is not empty and has no whitespace at its ends; it
    never raises, whatever the microphone, the recognizer and the shutdown
    flag do. *)
Theorem listen_to_speech_answer (U : Runtime) (world : nat -> attempt)
    (max_attempts : option Z) (initial_timeout : option Q) :
  sleeps_up_to U 5 ->
  int_timeout FLOAT_LIMIT initial_timeout ->
  match answer (listen_to_speech U world max_attempts initial_timeout) with
  | HeardText s => s <> [] /\ at_ends (fun c => isspace U c = false) s
  | HeardNone => True
  | HeardRaised _ => False
  | HeardOutOfFuel => False
  end.
Proof.
  intros Hup Hint.
  change (answer_ok U (answer (listen_to_speech U world max_attempts
                                 initial_timeout))).
  assert (H5 : (5 < inject_Z FLOAT_LIMIT)%Q).
  { apply Qlt_trans with (y := 15%Q);
      [reflexivity | apply small_below_float_limit]. }
  unfold listen_to_speech. apply listen_loop_answer; [exact Hup | | | lia].
  - destruct initial_timeout as [t |]; [| reflexivity].
    destruct (Qle_bool t 0) eqn:E; [reflexivity |].
    destruct (Qlt_le_dec 0 t) as [H | H]; [exact H |].
    apply Qle_bool_iff in H. congruence.
  - destruct initial_timeout as [t |]; [| exact H5].
    destruct (Qle_bool t 0); [exact H5 |].
    destruct Hint as (n & -> & Hn). now rewrite <- Zlt_Qlt.
Qed.

Lemma listen_to_speech_answer_witness :
  sleeps_up_to latin1 5
  /\ int_timeout FLOAT_LIMIT (Some 8%Q)
  /\ match answer (listen_to_speech latin1 world_mumble_then_hello
                     (Some 4%Z) (Some 8%Q)) with
     | HeardText s => s <> [] /\ at_ends (fun c => isspace latin1 c = false) s
     | HeardNone => True
     | HeardRaised _ => False
     | HeardOutOfFuel => False
     end.
Proof.
  assert (Hup : sleeps_up_to latin1 5)
    by (apply latin1_sleeps_up_to; discriminate).
  assert (Hint : int_timeout FLOAT_LIMIT (Some 8%Q)).
  { exists 8%Z. split; [reflexivity |]. vm_compute. reflexivity. }
  split; [exact Hup |]. split; [exact Hint |].
  exact (@listen_to_speech_answer latin1 world_mumble_then_hello
           (Some 4%Z) (Some 8%Q) Hup Hint).
Defined.

(** X19: [listen_to_speech] opens the microphone at most [max_attempts]
    times, and at most three times when [max_attempts] is not an int or is
    less than 1. *)
Theorem listen_to_speech_attempts (U : Runtime) (world : nat -> attempt)
    (max_attempts : option Z) (initial_timeout : option Q) :
  (Z.of_nat (opens (mic_log (listen_to_speech U world max_attempts
                               initial_timeout)))
   <= match max_attempts with
      | Some n => if (n <? 1)%Z then 3 else n
      | None => 3
      end)%Z.
Proof.
  unfold listen_to_speech.
  set (m := match max_attempts with
            | Some n => if (n <? 1)%Z then 3%Z else n
            | None => 3%Z
            end).
  assert (Hm : (1 <= m)%Z).
  { subst m. destruct max_attempts as [n |]; [| lia].
    destruct (Z.ltb_spec n 1); lia. }
  match goal with
  | |- context [listen_loop U world m ?f ?a ?t ?l] =>
      pose proof (listen_loop_opens U world m f a t l) as H
  end.
  cbn [opens filter length Z.of_nat] in H. lia.
Qed.

(** X20: the durations [listen_to_speech] works with stay in bounds.  When
    the initial timeout is left to its default of 5 seconds or is an int of
    at most 15 seconds, every listen timeout is positive and at most 15
    seconds with a phrase limit of 5 seconds, every calibration is positive
    and takes at most one second, and every wait between attempts is
    positive and at most 5 seconds. *)
Theorem listen_to_speech_timing (U : Runtime) (world : nat -> attempt)
    (max_attempts : option Z) (initial_timeout : option Q) :
  int_timeout 16 initial_timeout ->
  Forall timing_ok
    (mic_log (listen_to_speech U world max_attempts initial_timeout)).
Proof.
  intros Hb. unfold listen_to_speech.
  apply listen_loop_timing; [| | constructor].
  - destruct initial_timeout as [t |]; [| reflexivity].
    destruct (Qle_bool t 0) eqn:E; [reflexivity |].
    destruct (Qlt_le_dec 0 t) as [H | H]; [exact H |].
    apply Qle_bool_iff in H. congruence.
  - destruct initial_timeout as [t |]; [| discriminate].
    destruct (Qle_bool t 0); [discriminate |].
    destruct Hb as (n & -> & Hn). unfold Qle, inject_Z. simpl. lia.
Qed.

Lemma listen_to_speech_timing_witness :
  int_timeout 16 (Some 8%Q)
  /\ Forall timing_ok
       (mic_log (listen_to_speech latin1 world_mumble_then_hello (Some 4%Z)
                   (Some 8%Q))).
Proof.
  assert (H : int_timeout 16 (Some 8%Q)).
  { exists 8%Z. split; [reflexivity | lia]. }
  split; [exact H |].
  exact (@listen_to_speech_timing latin1 world_mumble_then_hello (Some 4%Z)
           (Some 8%Q) H).
Defined.

(* ================================================================== *)
(** * Further properties of backend/app.py *)

(** ** ConnectionManager *)

Lemma list_remove_connect l ws :
  ~ In ws l -> App.list_remove (App.connect l ws) ws = Some l.
Proof.
  unfold App.connect. induction l as [| x r IH]; intros H; simpl.
  - now rewrite Nat.eqb_refl.
  - destruct (Nat.eqb_spec x ws) as [-> | Hx]; [exfalso; apply H; now left |].
    rewrite IH; [reflexivity |]. intros Hin. apply H. now right.
Qed.

(** X21: connecting a channel that is not in the connection list and then
    disconnecting it gives the list back as it was. *)
Theorem disconnect_after_connect (l : list App.websocket) (ws : App.websocket) :
  ~ In ws l ->
  App.disconnect (App.connect l ws) ws = App.Ok l.
Proof.
  intros H. unfold App.disconnect. now rewrite list_remove_connect.
Qed.

Lemma disconnect_after_connect_witness :
  ~ In 3%nat [1%nat; 2%nat]
  /\ App.disconnect (App.connect [1%nat; 2%nat] 3%nat) 3%nat
     = App.Ok [1%nat; 2%nat].
Proof.
  assert (H : ~ In 3%nat [1%nat; 2%nat]).
  { intros [E | [E | []]]; discriminate E. }
  split; [exact H |].
  exact (@disconnect_after_connect [1%nat; 2%nat] 3%nat H).
Defined.

(** X22: [disconnect] raises exactly when the channel is not in the list;
    otherwise it takes one entry out and every other channel is in the list
    afterwards exactly when it was before. *)
Theorem disconnect_removes_one (l : list App.websocket) (ws : App.websocket) :
  match App.disconnect l ws with
  | App.Ok l' =>
      In ws l
      /\ length l = S (length l')
      /\ forall w, w <> ws -> (In w l' <-> In w l)
  | App.Err _ => ~ In ws l
  end.
Proof.
  unfold App.disconnect.
  induction l as [| x r IH]; simpl; [tauto |].
  destruct (Nat.eqb_spec x ws) as [-> | Hx].
  - split; [now left |]. split; [reflexivity |].
    intros w Hw. simpl. split; [now right |].
    intros [E | Hin]; [congruence | exact Hin].
  - destruct (App.list_remove r ws) as [r' |].
    + destruct IH as (Hin & Hlen & Hiff). split; [now right |].
      split; [simpl; now rewrite Hlen |].
      intros w Hw. simpl. rewrite (Hiff w Hw). tauto.
    + intros [E | Hin]; [contradiction | exact (IH Hin)].
Qed.

(** ** websocket_endpoint *)

Lemma serve_on_disconnect ws : forall inbox st x remaining,
  loop_exception ws inbox st = Some x ->
  App.is_disconnect x = true ->
  App.list_remove (App.active_connections st) ws = Some remaining ->
  let '(st', _, s) := App.serve ws inbox st in
  App.active_connections st' = remaining
  /\ App.closed st' = App.closed st
  /\ s = App.Finished.
Proof.
  induction inbox as [| [r e] rest IH]; intros st x remaining Hx Hd Hr;
    [discriminate |].
  cbn [loop_exception] in Hx. cbn [App.serve].
  destruct (App.loop_body ws r e st) as [[st1 done] [y |]] eqn:E.
  - injection Hx as ->. rewrite Hd.
    destruct (loop_body_keeps_connections _ _ _ _ E) as [Ha Hc].
    unfold App.disconnect. rewrite Ha, Hr. cbn. auto.
  - destruct (loop_body_keeps_connections _ _ _ _ E) as [Ha Hc].
    rewrite <- Ha in Hr. specialize (IH st1 x remaining Hx Hd Hr).
    destruct (App.serve ws rest st1) as [[st' more] s].
    destruct IH as (I1 & I2 & I3). rewrite <- Hc. auto.
Qed.

(** X23: a connection that ends with a disconnect signal leaves the
    connection list as it was before the channel connected.  If the channel
    was not in the list and the receive loop ends in a
    [WebSocketDisconnect], then after [websocket_endpoint] the list of
    active connections is the one it started with, no channel was closed by
    the server, and the handler has finished. *)
Theorem websocket_endpoint_disconnect (ws : App.websocket)
    (inbox : list (App.received * App.env)) (st : App.server) (x : App.exn) :
  ~ In ws (App.active_connections st) ->
  loop_exception ws inbox
    {| App.active_connections := App.connect (App.active_connections st) ws;
       App.closed := App.closed st; App.files := App.files st |} = Some x ->
  App.is_disconnect x = true ->
  let '(st', _, s) := App.websocket_endpoint ws inbox st in
  App.active_connections st' = App.active_connections st
  /\ App.closed st' = App.closed st
  /\ s = App.Finished.
Proof.
  intros Hin Hx Hd. unfold App.websocket_endpoint.
  exact (@serve_on_disconnect ws inbox _ x (App.active_connections st) Hx Hd
           (@list_remove_connect (App.active_connections st) ws Hin)).
Qed.

Lemma websocket_endpoint_disconnect_witness :
  let '(st', _, s) :=
    App.websocket_endpoint 1%nat
      [(App.RecvText (App.Ok text_message), env_ok); (client_gone, env_ok)]
      server_start in
  App.active_connections st' = App.active_connections server_start
  /\ App.closed st' = App.closed server_start
  /\ s = App.Finished.
Proof.
  exact (@websocket_endpoint_disconnect 1%nat
           [(App.RecvText (App.Ok text_message), env_ok); (client_gone, env_ok)]
           server_start App.WebSocketDisconnect (fun H => H) eq_refl eq_refl).
Defined.

(** X24: a text message is always answered with a "text_response".  The
    completion service is called once with the text of the message (the
    empty string when the field is missing); the reply is its content, or
    the fixed "Hmm, I'm having trouble..." text when the call raises.  When
    the temporary file cannot be made nothing is synthesized and the audio
    is null; when the synthesis of the reply fails the audio is null; when
    it succeeds the audio is the synthesized speech.  Nothing is
    transcribed and the connection list is not touched. *)
Theorem text_message_reply (ws : App.websocket)
    (items : list (pystr * pyobj)) (e : App.env) (st : App.server) :
  dict_get items (lit "type") = Some (PyStr (lit "text")) ->
  let user_text :=
    match dict_get items (lit "text") with Some v => v | None => PyStr [] end in
  let reply :=
    match App.acreate e with
    | App.Ok content => content
    | App.Err _ => PyStr App.MSG_TROUBLE
    end in
  exists st' synth audio,
    App.loop_body ws (App.RecvText (App.Ok (PyDict items))) e st
    = (st',
       App.ChatCompletion user_text :: synth
         ++ [App.SendJson ws
               (PyDict [(lit "type", PyStr (lit "text_response"));
                        (lit "text", reply);
                        (lit "audio", audio)])],
       App.send_reply e)
    /\ match App.new_mp3 e, App.gtts_save e with
       | App.Err _, _ => synth = [] /\ audio = PyNone
       | App.Ok _, App.Err _ =>
           synth = [App.Synthesize reply] /\ audio = PyNone
       | App.Ok _, App.Ok speech =>
           synth = [App.Synthesize reply] /\ audio = PyStr speech
       end
    /\ App.active_connections st' = App.active_connections st
    /\ App.closed st' = App.closed st.
Proof.
  intros Ht user_text reply. unfold App.loop_body, App.py_get. rewrite Ht.
  change (App.eq_str (PyStr (lit "text")) "audio") with false.
  change (App.eq_str (PyStr (lit "text")) "text") with true. cbn iota.
  fold user_text. unfold App.process_text_with_openai. fold reply.
  unfold App.text_to_speech.
  destruct (App.new_mp3 e) as [name | y].
  - destruct (App.gtts_save e) as [b | y];
      do 3 eexists; (split; [reflexivity |]); repeat split.
  - do 3 eexists. split; [reflexivity |]. repeat split.
Qed.

Lemma text_message_reply_witness :
  exists st' synth audio,
    App.loop_body 1%nat (App.RecvText (App.Ok text_message)) env_ok
      server_connected
    = (st',
       App.ChatCompletion (PyStr (lit "Hello")) :: synth
         ++ [App.SendJson 1%nat
               (PyDict [(lit "type", PyStr (lit "text_response"));
                        (lit "text", PyStr (lit "Hi there!"));
                        (lit "audio", audio)])],
       None)
    /\ (synth = [App.Synthesize (PyStr (lit "Hi there!"))]
        /\ audio = PyStr (lit "SUQzBAAAAAAA"))
    /\ App.active_connections st' = App.active_connections server_connected
    /\ App.closed st' = App.closed server_connected.
Proof.
  exact (@text_message_reply 1%nat
           [(lit "type", PyStr (lit "text")); (lit "text", PyStr (lit "Hello"))]
           env_ok server_connected eq_refl).
Defined.

(** X25: a message that is a JSON object whose type is neither "audio" nor
    "text" (or is missing) is dropped in silence: nothing is sent, no service
    is called, nothing changes, and the handler waits for the next
    message. *)
Theorem unknown_message_ignored (ws : App.websocket)
    (items : list (pystr * pyobj)) (e : App.env) (st : App.server) :
  match dict_get items (lit "type") with
  | Some type => App.eq_str type "audio" = false
                 /\ App.eq_str type "text" = false
  | None => True
  end ->
  App.loop_body ws (App.RecvText (App.Ok (PyDict items))) e st = (st, [], None).
Proof.
  intros H. unfold App.loop_body, App.py_get.
  destruct (dict_get items (lit "type")) as [type |].
  - destruct H as [-> ->]. reflexivity.
  - reflexivity.
Qed.

Lemma unknown_message_ignored_witness :
  App.serve 1%nat
    [(App.RecvText (App.Ok (PyDict [(lit "type", PyStr (lit "ping"))])),
      env_ok)]
    server_connected
  = (server_connected, [], App.Receiving).
Proof.
  cbn [App.serve].
  rewrite (@unknown_message_ignored 1%nat [(lit "type", PyStr (lit "ping"))]
             env_ok server_connected (conj eq_refl eq_refl)).
  reflexivity.
Defined.

Lemma path_exists_create_mono fs p q :
  path_exists fs q = true -> path_exists (create_file fs p) q = true.
Proof.
  intros H. unfold create_file. destruct (path_exists fs p); [exact H |].
  simpl. fold (path_exists fs q). rewrite H. apply orb_true_r.
Qed.

Lemma text_to_speech_mono e text fs q :
  path_exists fs q = true ->
  path_exists (fst (fst (App.text_to_speech e text fs))) q = true.
Proof.
  intros H. unfold App.text_to_speech.
  destruct (App.new_mp3 e); [| exact H].
  destruct (App.gtts_save e); simpl; now apply path_exists_create_mono.
Qed.

Lemma audio_try_mono ws e st q :
  path_exists (App.files st) q = true ->
  path_exists (App.files (fst (fst (App.audio_try ws e st)))) q = true.
Proof.
  intros H. unfold App.audio_try.
  destruct (App.new_wav e) as [p | y]; [| exact H].
  pose proof (path_exists_create_mono (App.files st) p q H) as Hp.
  destruct (App.b64decode e); [| exact Hp].
  destruct (App.atranscribe e); [| exact Hp].
  destruct (App.py_getitem _ _); [| exact Hp].
  pose proof (text_to_speech_mono e
                (App.process_text_with_openai e value1)
                (create_file (App.files st) p) q Hp) as Ht.
  cbn [App.with_files App.files] in *.
  destruct (App.text_to_speech _ _ _) as [[fs synth] audio]. exact Ht.
Qed.

Lemma loop_body_mono ws r e st q :
  path_exists (App.files st) q = true ->
  path_exists (App.files (fst (fst (App.loop_body ws r e st)))) q = true.
Proof.
  intros H. unfold App.loop_body.
  destruct r as [y | [data | y]]; try exact H.
  destruct (App.py_get data "type" PyNone) as [type | y]; [| exact H].
  destruct (App.eq_str type "audio").
  - destruct (App.py_get data "audio" PyNone) as [a | y]; [| exact H].
    destruct (negb (truthy a)); [exact H |].
    pose proof (audio_try_mono ws e st q H) as Ha.
    destruct (App.audio_try ws e st) as [[st2 d2] [y |]]; exact Ha.
  - destruct (App.eq_str type "text"); [| exact H].
    destruct (App.py_get data "text" (PyStr [])) as [t | y]; [| exact H].
    pose proof (text_to_speech_mono e (App.process_text_with_openai e t)
                  (App.files st) q H) as Ht.
    destruct (App.text_to_speech _ _ _) as [[fs synth] audio]. exact Ht.
Qed.

(** X26: the server never removes a file.  Whatever messages a connection
    handles and however it ends, every file that exists before exists
    afterwards: each temporary file of a transcription or a synthesis stays
    behind. *)
Theorem serve_never_removes_files (ws : App.websocket)
    (inbox : list (App.received * App.env)) (st : App.server) (q : pystr) :
  path_exists (App.files st) q = true ->
  path_exists (App.files (fst (fst (App.serve ws inbox st)))) q = true.
Proof.
  revert st. induction inbox as [| [r e] rest IH]; intros st H; [exact H |].
  cbn [App.serve].
  pose proof (loop_body_mono ws r e st q H) as Hb.
  destruct (App.loop_body ws r e st) as [[st1 done] [x |]].
  - destruct (App.is_disconnect x); [| exact Hb].
    destruct (App.disconnect _ _); exact Hb.
  - specialize (IH st1 Hb).
    destruct (App.serve ws rest st1) as [[st' more] s]. exact IH.
Qed.

Lemma serve_never_removes_files_witness :
  path_exists (App.files (App.with_files server_connected [lit "/tmp/x.wav"]))
    (lit "/tmp/x.wav") = true
  /\ path_exists
       (App.files
          (fst (fst (App.serve 1%nat
                       [(App.RecvText (App.Ok audio_message), env_ok);
                        (client_gone, env_ok)]
                       (App.with_files server_connected [lit "/tmp/x.wav"])))))
       (lit "/tmp/x.wav") = true.
Proof.
  split; [reflexivity |].
  exact (@serve_never_removes_files 1%nat
           [(App.RecvText (App.Ok audio_message), env_ok);
            (client_gone, env_ok)]
           (App.with_files server_connected [lit "/tmp/x.wav"])
           (lit "/tmp/x.wav") eq_refl).
Defined.

Lemma sends_app a b : sends (a ++ b) = (sends a + sends b)%nat.
Proof. unfold sends. now rewrite filter_app, length_app. Qed.

Lemma text_to_speech_no_send e text fs :
  sends (snd (fst (App.text_to_speech e text fs))) = 0%nat.
Proof.
  unfold App.text_to_speech. destruct (App.new_mp3 e); [| reflexivity].
  destruct (App.gtts_save e); reflexivity.
Qed.

(** X27: when the sends succeed, every message of type "audio" or "text" is
    answered by exactly one message and the handler stays in its receive
    loop, whatever else fails: the reply, the no-audio error or the
    processing error. *)
Theorem one_answer_per_message (ws : App.websocket)
    (items : list (pystr * pyobj)) (e : App.env) (st : App.server) :
  dict_get items (lit "type") = Some (PyStr (lit "audio"))
    \/ dict_get items (lit "type") = Some (PyStr (lit "text")) ->
  App.send_reply e = None ->
  App.send_error e = None ->
  let '(_, effects, x) :=
    App.loop_body ws (App.RecvText (App.Ok (PyDict items))) e st in
  sends effects = 1%nat /\ x = None.
Proof.
  intros Ht Hr He. unfold App.loop_body, App.py_get.
  destruct Ht as [-> | ->].
  - change (App.eq_str (PyStr (lit "audio")) "audio") with true. cbn iota.
    destruct (negb (truthy _)); [now rewrite Hr |].
    unfold App.audio_try.
    destruct (App.new_wav e); [| now rewrite He].
    destruct (App.b64decode e); [| now rewrite He].
    destruct (App.atranscribe e); [| now rewrite He].
    destruct (App.py_getitem _ _); [| now rewrite He].
    pose proof (text_to_speech_no_send e
                  (App.process_text_with_openai e value2)
                  (App.files (App.with_files st
                     (create_file (App.files st) value)))) as Hs.
    destruct (App.text_to_speech _ _ _) as [[fs synth] audio].
    cbn [fst snd] in Hs. rewrite Hr.
    split; [| reflexivity].
    rewrite !sends_app, Hs. reflexivity.
  - change (App.eq_str (PyStr (lit "text")) "audio") with false.
    change (App.eq_str (PyStr (lit "text")) "text") with true. cbn iota.
    pose proof (text_to_speech_no_send e
                  (App.process_text_with_openai e
                     match dict_get items (lit "text") with
                     | Some v => v
                     | None => PyStr []
                     end) (App.files st)) as Hs.
    destruct (App.text_to_speech _ _ _) as [[fs synth] audio].
    cbn [fst snd] in Hs. rewrite Hr.
    split; [| reflexivity].
    rewrite !sends_app, Hs. reflexivity.
Qed.

Lemma one_answer_per_message_witness :
  let '(_, effects, x) :=
    App.loop_body 1%nat
      (App.RecvText (App.Ok audio_message)) env_transcribe_fails
      server_connected in
  sends effects = 1%nat /\ x = None.
Proof.
  exact (@one_answer_per_message 1%nat
           [(lit "type", PyStr (lit "audio"));
            (lit "audio", PyStr (lit "UklGRiQAAABXQVZF"))]
           env_transcribe_fails server_connected
           (or_introl eq_refl) eq_refl eq_refl).
Defined.

(** X28: once an exception has left the receive loop the handler is done:
    messages that arrive after it are not handled, and neither the state nor
    the effects depend on them. *)
Theorem serve_stops_at_exception (ws : App.websocket)
    (handled later : list (App.received * App.env)) (st : App.server)
    (x : App.exn) :
  loop_exception ws handled st = Some x ->
  App.serve ws (handled ++ later) st = App.serve ws handled st.
Proof.
  revert st. induction handled as [| [r e] rest IH]; intros st H;
    [discriminate |].
  cbn [loop_exception] in H. cbn [app App.serve].
  destruct (App.loop_body ws r e st) as [[st1 done] [y |]]; [reflexivity |].
  now rewrite (IH st1 H).
Qed.

Lemma serve_stops_at_exception_witness :
  App.serve 1%nat
    ([(bad_frame, env_ok)] ++ [(App.RecvText (App.Ok text_message), env_ok)])
    server_connected
  = App.serve 1%nat [(bad_frame, env_ok)] server_connected.
Proof.
  exact (@serve_stops_at_exception 1%nat [(bad_frame, env_ok)]
           [(App.RecvText (App.Ok text_message), env_ok)] server_connected
           (App.Exception "Expecting value: line 1 column 1 (char 0)")
           eq_refl).
Defined.

Lemma text_to_speech_on_channel ws e text fs :
  Forall (on_channel ws) (snd (fst (App.text_to_speech e text fs))).
Proof.
  unfold App.text_to_speech. destruct (App.new_mp3 e); [| constructor].
  destruct (App.gtts_save e); repeat constructor.
Qed.

Lemma loop_body_on_channel ws r e st :
  Forall (on_channel ws) (snd (fst (App.loop_body ws r e st))).
Proof.
  unfold App.loop_body.
  destruct r as [y | [data | y]]; try constructor.
  destruct (App.py_get data "type" PyNone) as [type | y]; [| constructor].
  destruct (App.eq_str type "audio").
  - destruct (App.py_get data "audio" PyNone) as [a | y]; [| constructor].
    destruct (negb (truthy a)); [repeat constructor |].
    assert (Ht : Forall (on_channel ws)
                   (snd (fst (App.audio_try ws e st)))).
    { unfold App.audio_try.
      destruct (App.new_wav e); [| constructor].
      destruct (App.b64decode e); [| constructor].
      destruct (App.atranscribe e); [| repeat constructor].
      destruct (App.py_getitem _ _); [| repeat constructor].
      pose proof (text_to_speech_on_channel ws e
                    (App.process_text_with_openai e value2)
                    (App.files (App.with_files st
                       (create_file (App.files st) value)))) as Hs.
      destruct (App.text_to_speech _ _ _) as [[fs synth] audio].
      cbn [fst snd] in *.
      repeat (apply Forall_app; split); trivial; repeat constructor. }
    destruct (App.audio_try ws e st) as [[st2 d2] [y |]]; cbn [fst snd] in *;
      [apply Forall_app; split; [exact Ht | repeat constructor] | exact Ht].
  - destruct (App.eq_str type "text"); [| constructor].
    destruct (App.py_get data "text" (PyStr [])) as [t | y]; [| constructor].
    pose proof (text_to_speech_on_channel ws e
                  (App.process_text_with_openai e t) (App.files st)) as Hs.
    destruct (App.text_to_speech _ _ _) as [[fs synth] audio].
    cbn [fst snd] in *.
    repeat (apply Forall_app; split); trivial; repeat constructor.
Qed.

(** X29: the handler of a channel sends to that channel and closes that
    channel only: no message it handles makes it send to, or close, another
    client's channel. *)
Theorem serve_own_channel_only (ws : App.websocket)
    (inbox : list (App.received * App.env)) (st : App.server) :
  Forall (on_channel ws) (snd (fst (App.serve ws inbox st))).
Proof.
  revert st. induction inbox as [| [r e] rest IH]; intros st; [constructor |].
  cbn [App.serve].
  pose proof (loop_body_on_channel ws r e st) as Hb.
  destruct (App.loop_body ws r e st) as [[st1 done] [x |]]; cbn [fst snd] in Hb.
  - destruct (App.is_disconnect x).
    + destruct (App.disconnect _ _); exact Hb.
    + cbn [fst snd]. apply Forall_app. split; [exact Hb |].
      repeat constructor.
  - specialize (IH st1).
    destruct (App.serve ws rest st1) as [[st' more] s]. cbn [fst snd] in *.
    apply Forall_app. now split.
Qed.

(** ** listen_to_speech when nothing is heard *)

Lemma listen_loop_quiet_step U world max_attempts fuel attempts timeout log :
  quiet (world attempts) ->
  (Z.of_nat attempts < max_attempts)%Z ->
  (timeout < inject_Z FLOAT_LIMIT)%Q ->
  listen_loop U world max_attempts (S fuel) attempts timeout log
  = listen_loop U world max_attempts fuel (S attempts)
      (py_min (timeout * (3 # 2)) 10)
      (((log ++ [OpenMicrophone (timeout + 2)])
          ++ (if (0 <? attempts)%nat then [Say SAY_TRY_AGAIN] else []))
         ++ [Calibrate (py_min 1 (timeout / 2));
             Capture timeout (py_min 5 15)]).
Proof.
  intros (Hf & Hm & Hc & Ha) Hlt Hlim. cbn [listen_loop]. cbv zeta.
  destruct (@float_overflows_below timeout Hlim) as [Hfo Hho].
  rewrite Hf, Hm. destruct (Z.ltb_spec (Z.of_nat attempts) max_attempts);
    [| lia].
  cbn [andb negb]. unfold get_audio_input. rewrite Hho, Hc, Ha, Hfo.
  cbn [negb].
  destruct (0 <? attempts)%nat; [reflexivity |].
  now rewrite app_nil_r.
Qed.

(** X30: with its default arguments and a user who stays silent,
    [listen_to_speech] makes three attempts one after the other without
    waiting in between, listening for 5, 7.5 and 10 seconds, asks the user
    to try again before the second and the third, and returns None. *)
Theorem listen_to_speech_silence (U : Runtime) (world : nat -> attempt) :
  (forall k, quiet (world k)) ->
  listen_to_speech U world None None
  = {| answer := HeardNone;
       mic_log :=
         [OpenMicrophone 7; Calibrate 1; Capture 5 5;
          OpenMicrophone (19 # 2); Say SAY_TRY_AGAIN;
          Calibrate 1; Capture (15 # 2) 5;
          OpenMicrophone 12; Say SAY_TRY_AGAIN;
          Calibrate 1; Capture 10 5] |}.
Proof.
  intros H. unfold listen_to_speech.
  change (Z.to_nat 3) with 3%nat.
  assert (H5 : (5 < inject_Z FLOAT_LIMIT)%Q).
  { apply Qlt_trans with (y := 15%Q);
      [reflexivity | apply small_below_float_limit]. }
  rewrite !listen_loop_quiet_step
    by (apply H || lia || exact H5 || (apply timeout_next_small; discriminate)).
  cbn [listen_loop Z.of_nat]. cbv zeta.
  change (Z.pos (Pos.of_succ_nat 2) <? 3)%Z with false.
  cbn [andb]. f_equal.
Qed.

Lemma listen_to_speech_silence_witness :
  listen_to_speech latin1 (fun _ => attempt_quiet) None None
  = {| answer := HeardNone;
       mic_log :=
         [OpenMicrophone 7; Calibrate 1; Capture 5 5;
          OpenMicrophone (19 # 2); Say SAY_TRY_AGAIN;
          Calibrate 1; Capture (15 # 2) 5;
          OpenMicrophone 12; Say SAY_TRY_AGAIN;
          Calibrate 1; Capture 10 5] |}.
Proof.
  apply (@listen_to_speech_silence latin1 (fun _ => attempt_quiet)).
  intros k. repeat split.
Defined.
